(** * ipVcycle: the multigrid V-cycle illumination normaliser

    A shallow embedding of [src/ip/src/ipVcycle.cc] (class [Torch::ipVcycle]):
    the input gates [checkInput] and [allocateOutput], the driver
    [processInput], the recursive solver [mgv] and the clipping step
    [cutExtremum].

    Conventions of the embedding.
    - A C++ [double] is a real number of [R]: rounding, infinities and NaN
      are outside the model.  A C++ [int] is an integer of [Z]: the integers
      of this file are tensor extents, grid levels and pixel counts, and
      their arithmetic is taken without overflow; [/] on [int] is [Z.quot].
      The one exception is the pixel count [wxh] of [cutExtremum], the
      divisor of the mean and of the variance: it is the product of two
      extents, and its 32-bit wrap-around is written out ([int_of]).
    - A [DoubleTensor(h, w, 1)] is a record of its two extents and of its
      contents, read by [(y, x)].  The strides of the source only serve to
      walk the storage pixel by pixel, so that they do not appear.
    - The instance fields [n_grids_], [width_], [height_] and [m_output] are
      threaded through a state monad; a call of [error] or a failed
      [CHECK_FATAL] ends the run.
    - The routines of [ip/multigrid.h] ([gaussSeidel], [myMultiply],
      [buildOperator], [restriction], [project]), LAPACK's [dgesv_] and
      [ipRescaleGray] are not part of the sources: they are the fields of the
      class [MultigridLib], and the general theorems hold for every
      implementation.  The runs on concrete images use [stub_lib]. *)

From Stdlib Require Import ZArith List Bool Reals Lra Lia.
From Stdlib Require Import FunctionalExtensionality.
Import ListNotations.

Open Scope Z_scope.

(** ** Tensors *)

Definition Pixels := Z -> Z -> R.

(** [DoubleTensor(size0, size1, 1)]: a field of [size0] rows and [size1]
    columns. *)
Record DoubleTensor := mkDoubleTensor {
  size0 : Z;
  size1 : Z;
  get : Pixels
}.

(** The assignment to the pixel [(y, x, 0)] of [t]. *)
Definition put (t : DoubleTensor) (y x : Z) (v : R) : DoubleTensor :=
  mkDoubleTensor (size0 t) (size1 t)
    (fun y' x' => if (y' =? y) && (x' =? x) then v else get t y' x').

(** [t->fill(v)]. *)
Definition fill (t : DoubleTensor) (v : R) : DoubleTensor :=
  mkDoubleTensor (size0 t) (size1 t) (fun _ _ => v).

(** [dst->copy(src)]: the contents of [src] are written into [dst]. *)
Definition copy (dst src : DoubleTensor) : DoubleTensor :=
  mkDoubleTensor (size0 dst) (size1 dst) (get src).

(** The contents of a tensor are replaced through its data pointer: what a
    routine taking the tensor by reference does to it. *)
Definition with_data (t : DoubleTensor) (d : Pixels) : DoubleTensor :=
  mkDoubleTensor (size0 t) (size1 t) d.

(** [(y, x)] is a pixel of a field of [h] rows and [w] columns. *)
Definition in_field (h w y x : Z) : Prop := 0 <= y < h /\ 0 <= x < w.

Definition in_fieldb (h w y x : Z) : bool :=
  (0 <=? y) && (y <? h) && (0 <=? x) && (x <? w).

(** ** Counted loops *)

(** [for (i = i0; ...; i++) s = body i s], run [n] times. *)
Fixpoint for_from {S : Type} (n : nat) (i : Z) (body : Z -> S -> S) (s : S)
    : S :=
  match n with
  | O => s
  | Datatypes.S n' => for_from n' (i + 1) body (body i s)
  end.

(** [for (int i = 0; i < n; i++) s = body i s]. *)
Definition for_loop {S : Type} (n : Z) (body : Z -> S -> S) (s : S) : S :=
  for_from (Z.to_nat n) 0 body s.

(** ** The clipping step *)

(** The largest [int]. *)
Definition INT_MAX : Z := 2147483647.

(** The value an [int] expression takes when its mathematical value is [z]:
    the representative of [z] modulo [2^32] in [[-2^31, 2^31)]. *)
Definition int_of (z : Z) : Z :=
  (z + 2147483648) mod 4294967296 - 2147483648.

(** Lines 339-346 of [cutExtremum]: the sum of the pixels. *)
Definition pixel_sum (data : DoubleTensor) : R :=
  let height := size0 data in
  let width := size1 data in
  for_loop height (fun y mean_out =>
    for_loop width (fun x mean_out => (mean_out + get data y x)%R) mean_out)
    0%R.

(** Line 331, [const int wxh = width * height], and line 347,
    [mean_out /= wxh]. *)
Definition field_mean (data : DoubleTensor) : R :=
  let height := size0 data in
  let width := size1 data in
  let wxh := int_of (width * height) in
  (pixel_sum data / IZR wxh)%R.

(** Lines 350-357: the sum of the squared deviations from [mean_out]. *)
Definition square_sum (data : DoubleTensor) (mean_out : R) : R :=
  let height := size0 data in
  let width := size1 data in
  for_loop height (fun y var_out =>
    for_loop width (fun x var_out =>
      (var_out + (get data y x - mean_out) * (get data y x - mean_out))%R)
      var_out)
    0%R.

(** Line 358: [var_out /= (wxh - 1)]. *)
Definition field_var (data : DoubleTensor) : R :=
  let height := size0 data in
  let width := size1 data in
  let wxh := int_of (width * height) in
  (square_sum data (field_mean data) / IZR (int_of (wxh - 1)))%R.

(** Line 359: [std_dev = sqrt(var_out)]. *)
Definition field_std_dev (data : DoubleTensor) : R := sqrt (field_var data).

(** Lines 370-374: the two tests applied to one pixel, in this order. *)
Definition cut_pixel (mean_plus_dxstd mean_minus_dxstd : R)
    (data : DoubleTensor) (y x : Z) : DoubleTensor :=
  let data :=
    if Rgt_dec (get data y x) mean_plus_dxstd
    then put data y x mean_plus_dxstd else data in
  if Rlt_dec (get data y x) mean_minus_dxstd
  then put data y x mean_minus_dxstd else data.

(** [bool ipVcycle::cutExtremum(DoubleTensor& data, int distribution_width,
    int p)]: the tensor is clipped in place; the pair is the returned flag and
    the tensor after the call. *)
Definition cutExtremum (data : DoubleTensor) (distribution_width p : Z)
    : bool * DoubleTensor :=
  let height := size0 data in
  let width := size1 data in
  let mean_out := field_mean data in
  let std_dev := field_std_dev data in
  let mean_plus_dxstd := (mean_out + IZR distribution_width * std_dev)%R in
  let mean_minus_dxstd := (mean_out - IZR distribution_width * std_dev)%R in
  let data :=
    for_loop height (fun y data =>
      for_loop width (fun x data =>
        cut_pixel mean_plus_dxstd mean_minus_dxstd data y x) data) data in
  (true, data).

(** The value left in a pixel by the two tests of lines 370-374. *)
Definition clamp (mean_plus_dxstd mean_minus_dxstd v : R) : R :=
  let v := if Rgt_dec v mean_plus_dxstd then mean_plus_dxstd else v in
  if Rlt_dec v mean_minus_dxstd then mean_minus_dxstd else v.

(** ** Input and output tensors *)

(** [Tensor::Type]. *)
Inductive Datatype := Char | Short | Int | Long | Float | Double.

Definition Datatype_eqb (a b : Datatype) : bool :=
  match a, b with
  | Char, Char | Short, Short | Int, Int | Long, Long
  | Float, Float | Double, Double => true
  | _, _ => false
  end.

(** What the source reads of a generic [Tensor]: its number of dimensions,
    its element type, its extents and, for an image, the value of the pixel
    [(y, x, p)]. *)
Record Tensor := mkTensor {
  nDimension : Z;
  getDatatype : Datatype;
  size : Z -> Z;
  at3 : Z -> Z -> Z -> Z
}.

(** [t->fill(v)] and [t->copy(src)] on the output image. *)
Definition fill_short (v : Z) (t : Tensor) : Tensor :=
  mkTensor (nDimension t) (getDatatype t) (size t) (fun _ _ _ => v).

Definition copy_short (src dst : Tensor) : Tensor :=
  mkTensor (nDimension dst) (getDatatype dst) (size dst) (at3 src).

(** ** The routines that are not part of the sources *)

(** [DoubleTensor(5)]: the five diffusion coefficients. *)
Definition Rho := Z -> R.

(** The calls that leave this file, in the order in which they are made
    (ghost state: the source keeps no such record).  A call of [dgesv_]
    carries the status that LAPACK reports in [info]. *)
Inductive Call :=
| Call_gaussSeidel
| Call_myMultiply
| Call_buildOperator
| Call_restriction
| Call_project
| Call_dgesv (info : Z)
| Call_ipRescaleGray.

(** [dgesv_(N, NRHS, A, lda, ipiv, B, ldb, info)], by what the source reads
    after the call: the new contents of the right-hand side [B] and the
    value of [info]. *)
Definition Dgesv : Type :=
  Z -> Z -> DoubleTensor -> Z -> DoubleTensor -> Z -> Pixels * Z.

(** [ip/multigrid.h], LAPACK and [ip/ipRescaleGray.h].  A routine that
    receives a tensor by reference and fills it is given by the contents it
    leaves in that tensor; [ipRescaleGray_output] is the image that the
    rescaling leaves in its output slot.  [USE_CBLAS] is the preprocessor
    symbol of lines 24 and 222: [None] when it is not defined (the call of
    [dgesv_] is then compiled out), and LAPACK's routine otherwise.  The
    three [uninit] fields are the contents of newly allocated storage. *)
Class MultigridLib := {
  uninit : Pixels;
  uninit_rho : Rho;
  uninit_short : Z -> Z -> Z -> Z;
  gaussSeidel : DoubleTensor -> DoubleTensor -> Rho -> R -> Z -> Pixels * Rho;
  myMultiply : DoubleTensor -> DoubleTensor -> Rho -> R -> Z -> Pixels * Rho;
  buildOperator : DoubleTensor -> Rho -> R -> Z -> DoubleTensor -> Pixels * Rho;
  restriction : DoubleTensor -> DoubleTensor -> Pixels;
  project : DoubleTensor -> DoubleTensor -> Pixels;
  USE_CBLAS : option Dgesv;
  ipRescaleGray_output : DoubleTensor -> Tensor
}.

(** Modelled from the spec: the macro [IS_NEAR(var, value, delta)] comes
    from a header that is not part of the sources; the spec reads it as
    "within an epsilon tolerance": [value - delta <= var <= value + delta]. *)
Definition IS_NEAR (var value delta : R) : bool :=
  if Rle_dec (value - delta) var
  then if Rle_dec var (value + delta) then true else false
  else false.

(** ** The object and the monad of its methods *)

(** The options registered by the constructor, the output slot of [ipCore]
    and the three instance fields of the solver. *)
Record ipVcycle := mkipVcycle {
  opt_lambda : R;
  opt_n_grids : Z;
  opt_type : Z;
  m_output : option Tensor;
  n_grids_ : Z;
  width_ : Z;
  height_ : Z
}.

(** [ipVcycle::ipVcycle()]: the three options with their defaults, no output
    yet; the instance fields are not initialised. *)
Definition ipVcycle_new (n_grids0 width0 height0 : Z) : ipVcycle :=
  mkipVcycle 5 1 1 None n_grids0 width0 height0.

Definition set_m_output (o : option Tensor) (t : ipVcycle) : ipVcycle :=
  mkipVcycle (opt_lambda t) (opt_n_grids t) (opt_type t) o
    (n_grids_ t) (width_ t) (height_ t).

Definition set_n_grids_ (n : Z) (t : ipVcycle) : ipVcycle :=
  mkipVcycle (opt_lambda t) (opt_n_grids t) (opt_type t) (m_output t)
    n (width_ t) (height_ t).

Definition set_width_ (w : Z) (t : ipVcycle) : ipVcycle :=
  mkipVcycle (opt_lambda t) (opt_n_grids t) (opt_type t) (m_output t)
    (n_grids_ t) w (height_ t).

Definition set_height_ (h : Z) (t : ipVcycle) : ipVcycle :=
  mkipVcycle (opt_lambda t) (opt_n_grids t) (opt_type t) (m_output t)
    (n_grids_ t) (width_ t) h.

Record World := mkWorld {
  this : ipVcycle;
  calls : list Call
}.

(** [error(...)] of line 226 and [CHECK_FATAL] of line 167 end the run. *)
Inductive Failure :=
| LapackError (info : Z)
| CheckFatal.

(** A method returns, ends the run, or has not returned within the number of
    nested calls that the model was given. *)
Inductive Outcome (A : Type) :=
| Returned (a : A) (w : World)
| Aborted (e : Failure) (w : World)
| Unfinished.

Arguments Returned {A} a w.
Arguments Aborted {A} e w.
Arguments Unfinished {A}.

Definition M (A : Type) := World -> Outcome A.

Definition ret {A} (a : A) : M A := fun w => Returned a w.

Definition bind {A B} (m : M A) (k : A -> M B) : M B :=
  fun w =>
    match m w with
    | Returned a w' => k a w'
    | Aborted e w' => Aborted e w'
    | Unfinished => Unfinished
    end.

Notation "x <- m ;; k" := (bind m (fun x => k))
  (at level 61, m at next level, right associativity).
Notation "' p <- m ;; k" := (bind m (fun x => let p := x in k))
  (at level 61, p pattern, m at next level, right associativity).
Notation "m ;; k" := (bind m (fun _ => k))
  (at level 61, right associativity).

Definition get_this : M ipVcycle := fun w => Returned (this w) w.

Definition modify_this (f : ipVcycle -> ipVcycle) : M unit :=
  fun w => Returned tt (mkWorld (f (this w)) (calls w)).

Definition record (c : Call) : M unit :=
  fun w => Returned tt (mkWorld (this w) (calls w ++ [c])).

Definition abort {A} (e : Failure) : M A := fun w => Aborted e w.

Definition unfinished {A} : M A := fun _ => Unfinished.

(** ** The solver *)

Section Solver.

Context {lib : MultigridLib}.

(** [new DoubleTensor(h, w, 1)]. *)
Definition new_DoubleTensor (h w : Z) : DoubleTensor :=
  mkDoubleTensor h w uninit.

(** [new ShortTensor(s0, s1, s2)]. *)
Definition new_ShortTensor (s0 s1 s2 : Z) : Tensor :=
  mkTensor 3 Short
    (fun d => if d =? 0 then s0 else if d =? 1 then s1 else s2) uninit_short.

Definition call_gaussSeidel (x b : DoubleTensor) (rho : Rho) (lambda : R)
    (type : Z) : M (DoubleTensor * Rho) :=
  record Call_gaussSeidel ;;
  let '(d, rho') := gaussSeidel x b rho lambda type in
  ret (with_data x d, rho').

Definition call_myMultiply (x result : DoubleTensor) (rho : Rho) (lambda : R)
    (type : Z) : M (DoubleTensor * Rho) :=
  record Call_myMultiply ;;
  let '(d, rho') := myMultiply x result rho lambda type in
  ret (with_data result d, rho').

Definition call_buildOperator (result : DoubleTensor) (rho : Rho) (lambda : R)
    (type : Z) (image : DoubleTensor) : M (DoubleTensor * Rho) :=
  record Call_buildOperator ;;
  let '(d, rho') := buildOperator result rho lambda type image in
  ret (with_data result d, rho').

Definition call_restriction (data restricted : DoubleTensor) : M DoubleTensor :=
  record Call_restriction ;;
  ret (with_data restricted (restriction data restricted)).

Definition call_project (data projected : DoubleTensor) : M DoubleTensor :=
  record Call_project ;;
  ret (with_data projected (project data projected)).

(** Lines 222-224: the call of [dgesv_] under [#ifdef USE_CBLAS]; without
    the symbol, [d_result] and [info] keep the values they had. *)
Definition call_dgesv (N NRHS : Z) (A : DoubleTensor) (lda : Z)
    (B : DoubleTensor) (ldb info : Z) : M (DoubleTensor * Z) :=
  match USE_CBLAS with
  | Some dgesv_ =>
      let '(d, info') := dgesv_ N NRHS A lda B ldb in
      record (Call_dgesv info') ;;
      ret (with_data B d, info')
  | None => ret (B, info)
  end.

(** Lines 229-239: the loop under the comment "set boundary pixels to
    zero", with the test of the source. *)
Definition set_boundary (height width : Z) (result : DoubleTensor)
    : DoubleTensor :=
  for_loop height (fun y result =>
    for_loop width (fun x result =>
      let is_on_boundary :=
        (x =? 0) || (x =? width - 1) || (y =? 0) || (y =? width - 1) in
      if is_on_boundary then put result y x 0%R else result) result) result.

(** Lines 260-266: [temp = b_v - temp]. *)
Definition residual_loop (height width : Z) (b_v temp : DoubleTensor)
    : DoubleTensor :=
  for_loop height (fun y temp =>
    for_loop width (fun x temp =>
      put temp y x (get b_v y x - get temp y x)%R) temp) temp.

(** Lines 300-307: [result = x_v + xcorr]. *)
Definition update_loop (height width : Z) (x_v xcorr result : DoubleTensor)
    : DoubleTensor :=
  for_loop height (fun y result =>
    for_loop width (fun x result =>
      put result y x (get x_v y x + get xcorr y x)%R) result) result.

(** [DoubleTensor* ipVcycle::mgv(DoubleTensor& x_v, DoubleTensor& b_v,
    double lambda, int level, int type)].  [fuel] bounds the depth of the
    recursion. *)
Fixpoint mgv (fuel : nat) (x_v b_v : DoubleTensor) (lambda : R)
    (level type : Z) {struct fuel} : M DoubleTensor :=
  match fuel with
  | O => unfinished
  | Datatypes.S fuel' =>
    let height := size0 b_v in
    let width := size1 b_v in
    self <- get_this ;;
    let result := new_DoubleTensor (height_ self) (width_ self) in
    let rho := uninit_rho in
    if level =? n_grids_ self - 1 then
      let diffOperator :=
        new_DoubleTensor (width_ self * height_ self)
                         (width_ self * height_ self) in
      '(diffOperator, rho) <-
        call_buildOperator diffOperator rho lambda type b_v ;;
      let result := copy result b_v in
      let N := width_ self * height_ self in
      let lda := N in
      let ldb := N in
      let NRHS := 1 in
      let info := 0 in
      '(result, info) <- call_dgesv N NRHS diffOperator lda result ldb info ;;
      (if negb (info =? 0) then abort (LapackError info) else ret tt) ;;
      let result := set_boundary height width result in
      ret result
    else
      '(x_v, rho) <- call_gaussSeidel x_v b_v rho lambda type ;;
      let temp := new_DoubleTensor (height_ self) (width_ self) in
      '(temp, rho) <- call_myMultiply x_v temp rho lambda type ;;
      let temp := residual_loop height width b_v temp in
      let rhat :=
        new_DoubleTensor (Z.quot (height_ self) 2) (Z.quot (width_ self) 2) in
      rhat <- call_restriction temp rhat ;;
      modify_this (fun t => set_width_ (Z.quot (width_ t) 2) t) ;;
      modify_this (fun t => set_height_ (Z.quot (height_ t) 2) t) ;;
      self <- get_this ;;
      let zero := fill (new_DoubleTensor (height_ self) (width_ self)) 0%R in
      xhat <- mgv fuel' zero rhat lambda (level + 1) type ;;
      self <- get_this ;;
      let xcorr := new_DoubleTensor (height_ self * 2) (width_ self * 2) in
      xcorr <- call_project xhat xcorr ;;
      modify_this (fun t => set_width_ (width_ t * 2) t) ;;
      modify_this (fun t => set_height_ (height_ t * 2) t) ;;
      self <- get_this ;;
      let result := update_loop (height_ self) (width_ self) x_v xcorr result in
      '(result, rho) <- call_gaussSeidel result b_v rho lambda type ;;
      ret result
  end.

(** ** The driver *)

(** [bool ipVcycle::checkInput(const Tensor& input) const]. *)
Definition checkInput (input : Tensor) : bool :=
  if negb (nDimension input =? 3)
     || negb (Datatype_eqb (getDatatype input) Short)
  then false
  else true.

(** The test of lines 72-76. *)
Definition output_mismatch (o : option Tensor) (input : Tensor) : bool :=
  match o with
  | None => true
  | Some out =>
      negb (nDimension out =? 3)
      || negb (size out 0 =? size input 0)
      || negb (size out 1 =? size input 1)
      || negb (size out 2 =? size input 2)
  end.

(** [bool ipVcycle::allocateOutput(const Tensor& input)]. *)
Definition allocateOutput (input : Tensor) : M bool :=
  self <- get_this ;;
  if output_mismatch (m_output self) input then
    modify_this (set_m_output
      (Some (new_ShortTensor (size input 0) (size input 1) (size input 2)))) ;;
    ret true
  else if negb (size input 2 =? 1) then
    ret false
  else
    ret true.

(** Line 133, [image_grid->copy(t_input)]: the gray level of each pixel,
    converted to [double]. *)
Definition copy_image (dst : DoubleTensor) (input : Tensor) : DoubleTensor :=
  with_data dst (fun y x => IZR (at3 input y x 0)).

(** Lines 144-158: "build final result (R = I/L)". *)
Definition build_result (height width : Z) (image_grid light : DoubleTensor)
    (t_output_double : DoubleTensor) : DoubleTensor :=
  for_loop height (fun y t_output_double =>
    for_loop width (fun x t_output_double =>
      if (y =? 0) || (y =? height - 1) || (x =? 0) || (x =? width - 1)
      then put t_output_double y x 1%R
      else if IS_NEAR (get light y x) 0 (1 / 100)
      then put t_output_double y x 1%R
      else put t_output_double y x (get image_grid y x / get light y x)%R)
      t_output_double) t_output_double.

(** Modelled from the spec: [ipRescaleGray::process] is not part of the
    sources.  The spec (4.7 and 6) has it "rescale linearly into the display
    range" and gives it no failure: the call reports success. *)
Definition ipRescaleGray_process (t : DoubleTensor) : bool * Tensor :=
  (true, ipRescaleGray_output t).

(** Lines 166-168: the rescaling of [ipRescaleGray] under [CHECK_FATAL]. *)
Definition call_ipRescaleGray (t : DoubleTensor) : M Tensor :=
  record Call_ipRescaleGray ;;
  let '(ok, out) := ipRescaleGray_process t in
  if ok then ret out else abort CheckFatal.

(** Lines 102-161 of [processInput]: everything up to the clipping step; the
    result is the reflectance handed to the rescaling. *)
Definition reflectance (fuel : nat) (input : Tensor) : M DoubleTensor :=
  self <- get_this ;;
  let lambda := opt_lambda self in
  let n_grids := opt_n_grids self in
  let type := opt_type self in
  modify_this (set_n_grids_ n_grids) ;;
  let height := size input 0 in
  let width := size input 1 in
  modify_this (set_height_ height) ;;
  modify_this (set_width_ width) ;;
  let t_output_double := new_DoubleTensor height width in
  modify_this (fun t =>
    set_m_output (option_map (fill_short 0) (m_output t)) t) ;;
  let image_grid := copy_image (new_DoubleTensor height width) input in
  let guess := fill (new_DoubleTensor height width) 0%R in
  light <- mgv fuel guess image_grid lambda 0 type ;;
  let t_output_double :=
    build_result height width image_grid light t_output_double in
  let '(b1, t_output_double) := cutExtremum t_output_double 4 0 in
  ret t_output_double.

(** [bool ipVcycle::processInput(const Tensor& input)]. *)
Definition processInput (fuel : nat) (input : Tensor) : M bool :=
  t_output_double <- reflectance fuel input ;;
  rescaled <- call_ipRescaleGray t_output_double ;;
  modify_this (fun t =>
    set_m_output (option_map (copy_short rescaled) (m_output t)) t) ;;
  ret true.

(** Modelled from the spec: [ipCore::process], the entry point that the
    class inherits, is not part of the sources.  The comment of line 98 gives
    its order: "the input is checked, the outputs are allocated", then
    [processInput] runs. *)
Definition process (fuel : nat) (input : Tensor) : M bool :=
  if checkInput input then
    ok <- allocateOutput input ;;
    if ok then processInput fuel input else ret false
  else ret false.

End Solver.

(** ** Invariants of the instance fields *)

(** [height_] and [width_] are the extents of the right-hand side: what
    [processInput] sets up before its call of [mgv]. *)
Definition dims_match (t : ipVcycle) (b_v : DoubleTensor) : Prop :=
  height_ t = size0 b_v /\ width_ t = size1 b_v.

(** The grid of [level] can be halved down to the coarsest level. *)
Definition coarsenable (t : ipVcycle) (level : Z) : Prop :=
  level <= n_grids_ t - 1 /\
  (2 ^ (n_grids_ t - 1 - level) | width_ t) /\
  (2 ^ (n_grids_ t - 1 - level) | height_ t).

(** The world in which the recursive call of line 279 starts. *)
Definition descend (w : World) : World :=
  mkWorld
    (set_height_ (Z.quot (height_ (this w)) 2)
       (set_width_ (Z.quot (width_ (this w)) 2) (this w)))
    (calls w ++ [Call_gaussSeidel; Call_myMultiply; Call_restriction]).

(** What the caller of a method observes of its outcome. *)
Inductive Answer (A : Type) :=
| Value (a : A)
| Fatal (e : Failure)
| NoAnswer.

Arguments Value {A} a.
Arguments Fatal {A} e.
Arguments NoAnswer {A}.

Definition answer {A} (o : Outcome A) : Answer A :=
  match o with
  | Returned a _ => Value a
  | Aborted e _ => Fatal e
  | Unfinished => NoAnswer
  end.

(** The world in which a method stopped. *)
Definition outcome_world {A} (o : Outcome A) : option World :=
  match o with
  | Returned _ w => Some w
  | Aborted _ w => Some w
  | Unfinished => None
  end.

(** The statuses that [dgesv_] reported, in the order of the calls. *)
Fixpoint dgesv_statuses (cs : list Call) : list Z :=
  match cs with
  | [] => []
  | Call_dgesv info :: cs' => info :: dgesv_statuses cs'
  | _ :: cs' => dgesv_statuses cs'
  end.

(** First row, last row, first column or last column of a field of [h] rows
    and [w] columns. *)
Definition on_boundary (h w y x : Z) : bool :=
  (y =? 0) || (y =? h - 1) || (x =? 0) || (x =? w - 1).

(** ** The V-cycle as the specification words it *)

Section SpecLevel.

Context {lib : MultigridLib}.

(** Spec 4.1, terminal case: "assemble the dense system matrix for the
    current grid size and the Coefficient Set derived from rhs". *)
Definition spec_assemble (rhs : DoubleTensor) (lambda : R) (type : Z)
    : DoubleTensor :=
  let n := size1 rhs * size0 rhs in
  let matrix := new_DoubleTensor n n in
  with_data matrix (fst (buildOperator matrix uninit_rho lambda type rhs)).

(** Spec 4.6: "solve(A, b) -> x", with the status of the factorisation.  In
    a build without [USE_CBLAS] there is no solver and the right-hand side
    is the answer. *)
Definition spec_solve (A rhs : DoubleTensor) : DoubleTensor * Z :=
  let n := size1 rhs * size0 rhs in
  match USE_CBLAS with
  | Some dgesv_ =>
      let '(d, info) := dgesv_ n 1 A n rhs n in (with_data rhs d, info)
  | None => (rhs, 0)
  end.

(** Spec 4.1: "force all boundary pixels (first/last row, first/last
    column) to exactly 0". *)
Definition spec_zero_boundary (field : DoubleTensor) : DoubleTensor :=
  with_data field (fun y x =>
    if in_fieldb (size0 field) (size1 field) y x
       && on_boundary (size0 field) (size1 field) y x
    then 0%R else get field y x).

(** Spec 4.1, terminal case, and spec 8: a single direct solve of the
    assembled operator, then the boundary forced to 0. *)
Definition spec_terminal (rhs : DoubleTensor) (lambda : R) (type : Z)
    : Answer DoubleTensor :=
  let A := spec_assemble rhs lambda type in
  let '(field, info) := spec_solve A rhs in
  if info =? 0 then Value (spec_zero_boundary field)
  else Fatal (LapackError info).








(** The call of [dgesv_] that the terminal branch records. *)
Definition solver_calls (info : Z) : list Call :=
  match USE_CBLAS with
  | Some _ => [Call_dgesv info]
  | None => []
  end.

End SpecLevel.

(** ** Scenarios *)

(** An implementation of the absent routines for the runs on concrete
    inputs: new storage holds zeros, the operator is the identity (smoothing
    and multiplication leave a field as it is), restriction keeps every
    second pixel and prolongation repeats each pixel. *)
Definition stub_lib (cblas : option Dgesv) : MultigridLib := {|
  uninit := fun _ _ => 0%R;
  uninit_rho := fun _ => 0%R;
  uninit_short := fun _ _ _ => 0;
  gaussSeidel := fun x _ rho _ _ => (get x, rho);
  myMultiply := fun x _ rho _ _ => (get x, rho);
  buildOperator := fun _ rho _ _ _ =>
    (fun i j => if i =? j then 1%R else 0%R, rho);
  restriction := fun data _ => fun y x => get data (2 * y) (2 * x);
  project := fun data _ => fun y x => get data (Z.quot y 2) (Z.quot x 2);
  USE_CBLAS := cblas;
  ipRescaleGray_output := fun t =>
    mkTensor 3 Short
      (fun d => if d =? 0 then size0 t else if d =? 1 then size1 t else 1)
      (fun _ _ _ => 0)
|}.

(** LAPACK on the identity system: the right-hand side is the solution. *)
Definition dgesv_identity : Dgesv :=
  fun _ _ _ _ B _ => (get B, 0).

(** LAPACK reporting that the factor U is singular at its third pivot. *)
Definition dgesv_singular : Dgesv :=
  fun _ _ _ _ B _ => (get B, 3).

(** An object with [n_grids] levels, working on a grid of [height] rows and
    [width] columns, before any call has been made. *)
Definition world0 (n_grids width height : Z) : World :=
  mkWorld (mkipVcycle 5 n_grids 1 None n_grids width height) [].

Definition constant_field (h w : Z) (v : R) : DoubleTensor :=
  mkDoubleTensor h w (fun _ _ => v).

(** A gray image of 4 rows and 3 columns, every pixel 5. *)
Definition tall_image : DoubleTensor := constant_field 4 3 5.

(** A newly constructed object. *)
Definition fresh_world : World := mkWorld (ipVcycle_new 0 0 0) [].

(** A colour image of 4 rows, 4 columns and 3 channels. *)
Definition rgb_image : Tensor :=
  mkTensor 3 Short (fun d => if d =? 2 then 3 else 4) (fun _ _ _ => 7).

(** A gray image of a single pixel. *)
Definition one_pixel_image : Tensor :=
  mkTensor 3 Short (fun _ => 1) (fun _ _ _ => 7).

(** A gray image of 4 rows and 4 columns. *)
Definition gray_image : Tensor :=
  mkTensor 3 Short (fun d => if d =? 2 then 1 else 4) (fun _ _ _ => 7).

(** The field of the scenario: 5 rows, 5 columns, every pixel 1 but the
    centre, which is 26. *)
Definition spike : DoubleTensor :=
  mkDoubleTensor 5 5 (fun y x => if (y =? 2) && (x =? 2) then 26%R else 1%R).



(** ** The shape of a V-cycle *)

(** The number of levels below [level], down to the coarsest one. *)
Definition levels_below (t : ipVcycle) (level : Z) : nat :=
  Z.to_nat (n_grids_ t - 1 - level).

(** The calls of [d] levels on the way down (lines 246, 258 and 270 at each
    level) and on the way up (lines 283 and 310). *)
Fixpoint descent_calls (d : nat) : list Call :=
  match d with
  | O => []
  | Datatypes.S d' =>
      [Call_gaussSeidel; Call_myMultiply; Call_restriction] ++ descent_calls d'
  end.

Fixpoint ascent_calls (d : nat) : list Call :=
  match d with
  | O => []
  | Datatypes.S d' => ascent_calls d' ++ [Call_project; Call_gaussSeidel]
  end.

(** The part of the object that [mgv] does not write: the options, the
    output slot and [n_grids_]. *)
Definition same_settings (t t' : ipVcycle) : Prop :=
  opt_lambda t' = opt_lambda t /\ opt_n_grids t' = opt_n_grids t /\
  opt_type t' = opt_type t /\ m_output t' = m_output t /\
  n_grids_ t' = n_grids_ t.

(** An object whose option [n_grids] was set to [n]. *)
Definition world_with_n_grids (n : Z) : World :=
  mkWorld (mkipVcycle 5 n 1 None 0 0 0) [].

(** An object whose option [n_grids] was set to [n] and whose output slot
    holds the tensor that [allocateOutput] allocates for a gray image of [h]
    rows and [w] columns. *)
Definition allocated_world {lib : MultigridLib} (n h w : Z) : World :=
  mkWorld (mkipVcycle 5 n 1 (Some (new_ShortTensor h w 1)) 0 0 0) [].

(** ** Loops that rewrite a field pixel by pixel *)

(** Case analysis on every integer test of the goal. *)
Ltac zcases :=
  repeat match goal with
  | |- context [Z.eqb ?a ?b] => destruct (Z.eqb_spec a b)
  | |- context [Z.leb ?a ?b] => destruct (Z.leb_spec a b)
  | |- context [Z.ltb ?a ?b] => destruct (Z.ltb_spec a b)
  end;
  cbn [andb orb negb]; subst; try reflexivity; try lia.

Section PixelLoops.

Variable step : Z -> Z -> DoubleTensor -> DoubleTensor.
Variable f : Z -> Z -> R -> R.

(** One step rewrites its own pixel from the old value of that pixel and
    touches nothing else. *)
Hypothesis step_get : forall y x t y' x',
  get (step y x t) y' x' =
  if (y' =? y) && (x' =? x) then f y x (get t y x) else get t y' x'.
Hypothesis step_size0 : forall y x t, size0 (step y x t) = size0 t.
Hypothesis step_size1 : forall y x t, size1 (step y x t) = size1 t.

Lemma row_from_spec : forall n x0 y t,
  let t' := for_from n x0 (fun x t => step y x t) t in
  size0 t' = size0 t /\ size1 t' = size1 t /\
  forall y' x', get t' y' x' =
    if (y' =? y) && (x0 <=? x') && (x' <? x0 + Z.of_nat n)
    then f y x' (get t y x') else get t y' x'.
Proof.
  induction n as [|n IH]; intros x0 y t; cbn zeta.
  - simpl for_from. repeat split. intros y' x'. zcases.
  - simpl for_from. specialize (IH (x0 + 1) y (step y x0 t)). cbn zeta in IH.
    destruct IH as (H0 & H1 & Hg). rewrite H0, H1, step_size0, step_size1.
    repeat split. intros y' x'. rewrite Hg, !step_get.
    rewrite Nat2Z.inj_succ. zcases.
Qed.

Lemma rows_from_spec : forall w n y0 t,
  0 <= w ->
  let t' := for_from n y0 (fun y t => for_loop w (fun x t => step y x t) t) t in
  size0 t' = size0 t /\ size1 t' = size1 t /\
  forall y' x', get t' y' x' =
    if (y0 <=? y') && (y' <? y0 + Z.of_nat n) && (0 <=? x') && (x' <? w)
    then f y' x' (get t y' x') else get t y' x'.
Proof.
  intros w n. induction n as [|n IH]; intros y0 t Hw; cbn zeta.
  - simpl for_from. repeat split. intros y' x'. zcases.
  - simpl for_from.
    pose proof (row_from_spec (Z.to_nat w) 0 y0 t) as Hr. cbn zeta in Hr.
    fold (for_loop w (fun x t => step y0 x t) t) in Hr.
    destruct Hr as (R0 & R1 & Rg).
    specialize (IH (y0 + 1) (for_loop w (fun x t => step y0 x t) t) Hw).
    cbn zeta in IH. destruct IH as (H0 & H1 & Hg).
    rewrite H0, H1, R0, R1. repeat split. intros y' x'.
    rewrite Hg, !Rg. rewrite Z2Nat.id by exact Hw.
    rewrite Nat2Z.inj_succ. zcases.
Qed.

(** The two nested loops of the source, over [h] rows and [w] columns. *)
Lemma pixel_loops_spec : forall h w t,
  let t' := for_loop h (fun y t => for_loop w (fun x t => step y x t) t) t in
  size0 t' = size0 t /\ size1 t' = size1 t /\
  forall y x, get t' y x =
    if in_fieldb h w y x then f y x (get t y x) else get t y x.
Proof.
  intros h w t. cbn zeta.
  destruct (Z.le_gt_cases 0 w) as [Hw|Hw].
  - pose proof (rows_from_spec w (Z.to_nat h) 0 t Hw) as H. cbn zeta in H.
    fold (for_loop h (fun y t => for_loop w (fun x t => step y x t) t) t) in H.
    destruct H as (H0 & H1 & Hg). repeat split; try assumption.
    intros y x. rewrite Hg. unfold in_fieldb.
    destruct (Z.le_gt_cases 0 h).
    + rewrite Z2Nat.id by assumption. zcases.
    + replace (Z.to_nat h) with O by lia. zcases.
  - assert (E : forall n y0 t0,
      for_from n y0 (fun y t => for_loop w (fun x t => step y x t) t) t0 = t0).
    { induction n as [|n IH]; intros; simpl; [reflexivity|].
      unfold for_loop at 2. replace (Z.to_nat w) with O by lia. simpl.
      apply IH. }
    unfold for_loop at 1 3 5. rewrite E. repeat split. intros y x.
    unfold in_fieldb. zcases.
Qed.

End PixelLoops.

(** ** Facts on counted loops *)





Lemma in_fieldb_true h w y x : in_field h w y x -> in_fieldb h w y x = true.
Proof. unfold in_field, in_fieldb. intros [? ?]. zcases. Qed.

Lemma in_fieldb_spec h w y x : reflect (in_field h w y x) (in_fieldb h w y x).
Proof.
  unfold in_field, in_fieldb.
  destruct (0 <=? y) eqn:E1, (y <? h) eqn:E2, (0 <=? x) eqn:E3, (x <? w) eqn:E4;
    constructor; lia.
Qed.

(** ** What the clipping loop computes *)

Lemma cut_pixel_get hi lo t y x y' x' :
  get (cut_pixel hi lo t y x) y' x' =
  if (y' =? y) && (x' =? x) then clamp hi lo (get t y x) else get t y' x'.
Proof.
  unfold cut_pixel, clamp.
  destruct (Rgt_dec (get t y x) hi) as [G|G]; simpl.
  - rewrite !Z.eqb_refl. simpl.
    destruct (Rlt_dec hi lo); simpl; destruct ((y' =? y) && (x' =? x));
      reflexivity.
  - destruct (Rlt_dec (get t y x) lo); simpl;
      destruct ((y' =? y) && (x' =? x)) eqn:E; try reflexivity.
    apply andb_true_iff in E. destruct E as [E1 E2].
    apply Z.eqb_eq in E1, E2. subst. reflexivity.
Qed.

Lemma cut_pixel_size0 hi lo y x t : size0 (cut_pixel hi lo t y x) = size0 t.
Proof.
  unfold cut_pixel. destruct (Rgt_dec _ _); destruct (Rlt_dec _ _); reflexivity.
Qed.

Lemma cut_pixel_size1 hi lo y x t : size1 (cut_pixel hi lo t y x) = size1 t.
Proof.
  unfold cut_pixel. destruct (Rgt_dec _ _); destruct (Rlt_dec _ _); reflexivity.
Qed.

Lemma cutExtremum_spec data k p :
  let out := snd (cutExtremum data k p) in
  let hi := (field_mean data + IZR k * field_std_dev data)%R in
  let lo := (field_mean data - IZR k * field_std_dev data)%R in
  fst (cutExtremum data k p) = true /\
  size0 out = size0 data /\ size1 out = size1 data /\
  forall y x, get out y x =
    if in_fieldb (size0 data) (size1 data) y x
    then clamp hi lo (get data y x) else get data y x.
Proof.
  cbn zeta. unfold cutExtremum. cbn [fst snd]. split; [reflexivity|].
  apply (pixel_loops_spec
           (fun y x t => cut_pixel _ _ t y x) (fun _ _ v => clamp _ _ v)).
  - intros. apply cut_pixel_get.
  - intros. apply cut_pixel_size0.
  - intros. apply cut_pixel_size1.
Qed.


(** An [int] expression whose mathematical value fits in an [int] has that
    value. *)
Lemma int_of_in_range z : - 2147483648 <= z <= INT_MAX -> int_of z = z.
Proof.
  unfold int_of, INT_MAX. intros H. rewrite Z.mod_small by lia. lia.
Qed.








(** ** Facts on the solver *)

(** Unfolds the monad of the methods. *)
Ltac run_monad :=
  unfold bind, ret, get_this, modify_this, record, abort, unfinished,
    call_gaussSeidel, call_myMultiply, call_buildOperator, call_restriction,
    call_project, call_dgesv, call_ipRescaleGray;
  cbn [this calls].

Section SolverFacts.

Context {lib : MultigridLib}.

Lemma set_boundary_spec height width t :
  let t' := set_boundary height width t in
  size0 t' = size0 t /\ size1 t' = size1 t /\
  forall y x, get t' y x =
    if in_fieldb height width y x
       && ((x =? 0) || (x =? width - 1) || (y =? 0) || (y =? width - 1))
    then 0%R else get t y x.
Proof.
  cbn zeta. unfold set_boundary.
  destruct (pixel_loops_spec
    (fun y x t =>
       if (x =? 0) || (x =? width - 1) || (y =? 0) || (y =? width - 1)
       then put t y x 0%R else t)
    (fun y x v =>
       if (x =? 0) || (x =? width - 1) || (y =? 0) || (y =? width - 1)
       then 0%R else v)) with (h := height) (w := width) (t := t)
    as (H0 & H1 & Hg).
  - intros y x t0 y' x'.
    destruct ((x =? 0) || (x =? width - 1) || (y =? 0) || (y =? width - 1));
      cbn [put get].
    + reflexivity.
    + destruct ((y' =? y) && (x' =? x)) eqn:E; [|reflexivity].
      apply andb_true_iff in E. destruct E as [E1 E2].
      apply Z.eqb_eq in E1, E2. subst. reflexivity.
  - intros y x t0. destruct (_ || _); reflexivity.
  - intros y x t0. destruct (_ || _); reflexivity.
  - cbn zeta in *. repeat split; try assumption.
    intros y x. rewrite Hg. destruct (in_fieldb height width y x); cbn [andb];
      [|reflexivity].
    destruct (_ || _); reflexivity.
Qed.


(** A loop that writes [g y x v] over the old value [v] of each pixel. *)
Lemma put_loops_spec (g : Z -> Z -> R -> R) h w t :
  let t' :=
    for_loop h (fun y t =>
      for_loop w (fun x t => put t y x (g y x (get t y x))) t) t in
  size0 t' = size0 t /\ size1 t' = size1 t /\
  forall y x, get t' y x =
    if in_fieldb h w y x then g y x (get t y x) else get t y x.
Proof.
  apply (pixel_loops_spec (fun y x t => put t y x (g y x (get t y x))) g);
    reflexivity.
Qed.


Lemma update_loop_spec height width x_v xcorr result :
  let t' := update_loop height width x_v xcorr result in
  size0 t' = size0 result /\ size1 t' = size1 result /\
  forall y x, get t' y x =
    if in_fieldb height width y x
    then (get x_v y x + get xcorr y x)%R else get result y x.
Proof.
  apply (put_loops_spec (fun y x _ => (get x_v y x + get xcorr y x)%R)).
Qed.

(** Two tensors with the same extents and the same contents are equal. *)
Lemma DoubleTensor_eq (a b : DoubleTensor) :
  size0 a = size0 b -> size1 a = size1 b ->
  (forall y x, get a y x = get b y x) -> a = b.
Proof.
  destruct a as [a0 a1 ga], b as [b0 b1 gb]. cbn. intros -> -> H.
  f_equal. extensionality y. extensionality x. apply H.
Qed.

(** The terminal branch, lines 203-242. *)
Lemma mgv_terminal fuel x_v b_v lambda level type w :
  level = n_grids_ (this w) - 1 ->
  dims_match (this w) b_v ->
  mgv (Datatypes.S fuel) x_v b_v lambda level type w =
  let '(field, info) := spec_solve (spec_assemble b_v lambda type) b_v in
  let w' := mkWorld (this w) (calls w ++ Call_buildOperator :: solver_calls info) in
  if info =? 0
  then Returned (set_boundary (size0 b_v) (size1 b_v) field) w'
  else Aborted (LapackError info) w'.
Proof.
  intros Hl [Hh Hw]. cbn [mgv]. run_monad.
  rewrite Hl, Z.eqb_refl. unfold spec_solve, spec_assemble, solver_calls.
  rewrite Hh, Hw.
  assert (E : copy (new_DoubleTensor (size0 b_v) (size1 b_v)) b_v = b_v)
    by (destruct b_v; reflexivity).
  rewrite E.
  destruct (buildOperator _ _ _ _ _) as [dA rhoA]. cbn [fst].
  run_monad.
  destruct USE_CBLAS as [dgesv_|].
  - destruct (dgesv_ _ _ _ _ _ _) as [d info]. run_monad.
    rewrite <- app_assoc. cbn [app].
    destruct (info =? 0); reflexivity.
  - run_monad. cbn. reflexivity.
Qed.

(** The recursive branch, lines 243-311. *)
Lemma mgv_recursive fuel x_v b_v lambda level type w :
  level <> n_grids_ (this w) - 1 ->
  mgv (Datatypes.S fuel) x_v b_v lambda level type w =
  let self := this w in
  let '(d1, rho1) := gaussSeidel x_v b_v uninit_rho lambda type in
  let x1 := with_data x_v d1 in
  let temp0 := new_DoubleTensor (height_ self) (width_ self) in
  let '(d2, rho2) := myMultiply x1 temp0 rho1 lambda type in
  let temp := residual_loop (size0 b_v) (size1 b_v) b_v (with_data temp0 d2) in
  let rhat0 :=
    new_DoubleTensor (Z.quot (height_ self) 2) (Z.quot (width_ self) 2) in
  let rhat := with_data rhat0 (restriction temp rhat0) in
  let zero :=
    fill (new_DoubleTensor (Z.quot (height_ self) 2) (Z.quot (width_ self) 2))
      0%R in
  match mgv fuel zero rhat lambda (level + 1) type (descend w) with
  | Returned xhat w2 =>
      let self2 := this w2 in
      let xcorr0 := new_DoubleTensor (height_ self2 * 2) (width_ self2 * 2) in
      let xcorr := with_data xcorr0 (project xhat xcorr0) in
      let self3 :=
        set_height_ (height_ self2 * 2) (set_width_ (width_ self2 * 2) self2) in
      let result :=
        update_loop (height_ self3) (width_ self3) x1 xcorr
          (new_DoubleTensor (height_ self) (width_ self)) in
      let '(d3, rho3) := gaussSeidel result b_v rho2 lambda type in
      Returned (with_data result d3)
        (mkWorld self3 (calls w2 ++ [Call_project; Call_gaussSeidel]))
  | Aborted e w2 => Aborted e w2
  | Unfinished => Unfinished
  end.
Proof.
  intros Hl. cbn [mgv]. run_monad.
  apply Z.eqb_neq in Hl. rewrite Hl. cbn zeta.
  destruct (gaussSeidel x_v b_v uninit_rho lambda type) as [d1 rho1]. run_monad.
  destruct (myMultiply _ _ rho1 lambda type) as [d2 rho2]. run_monad.
  unfold descend. cbn [set_width_ set_height_ width_ height_ n_grids_
    opt_lambda opt_n_grids opt_type m_output].
  rewrite <- !app_assoc. cbn [app].
  destruct (mgv fuel _ _ lambda (level + 1) type _) as [xhat w2| |];
    [|reflexivity|reflexivity].
  run_monad.
  cbn [set_width_ set_height_ width_ height_ n_grids_
    opt_lambda opt_n_grids opt_type m_output].
  destruct (gaussSeidel _ b_v rho2 lambda type) as [d3 rho3]. run_monad.
  rewrite <- !app_assoc. reflexivity.
Qed.


(** The terminal branch whatever the instance fields hold. *)
Lemma mgv_terminal_raw fuel x_v b_v lambda level type w :
  level = n_grids_ (this w) - 1 ->
  exists field info,
    (info = 0 \/ solver_calls info = [Call_dgesv info]) /\
    size0 field = height_ (this w) /\ size1 field = width_ (this w) /\
    mgv (Datatypes.S fuel) x_v b_v lambda level type w =
    let w' :=
      mkWorld (this w) (calls w ++ Call_buildOperator :: solver_calls info) in
    if info =? 0
    then Returned (set_boundary (size0 b_v) (size1 b_v) field) w'
    else Aborted (LapackError info) w'.
Proof.
  intros Hl. cbn [mgv]. run_monad. rewrite Hl, Z.eqb_refl.
  destruct (buildOperator _ _ _ _ _) as [dA rhoA]. run_monad.
  unfold solver_calls. destruct USE_CBLAS as [dgesv_|].
  - destruct (dgesv_ _ _ _ _ _ _) as [d info]. run_monad.
    exists (with_data
              (copy (new_DoubleTensor (height_ (this w)) (width_ (this w))) b_v) d),
      info.
    split; [right; reflexivity|]. split; [reflexivity|]. split; [reflexivity|].
    rewrite <- app_assoc. cbn [app].
    destruct (info =? 0); reflexivity.
  - run_monad.
    exists (copy (new_DoubleTensor (height_ (this w)) (width_ (this w))) b_v), 0.
    split; [left; reflexivity|]. split; [reflexivity|]. split; [reflexivity|].
    cbn. rewrite <- ?app_assoc. reflexivity.
Qed.

Lemma quot2_restore a : (2 | a) -> Z.quot a 2 * 2 = a.
Proof.
  intros [q ->]. rewrite Z.quot_mul by lia. reflexivity.
Qed.

Lemma coarsenable_descend w level :
  coarsenable (this w) level -> level <> n_grids_ (this w) - 1 ->
  coarsenable (this (descend w)) (level + 1) /\
  (2 | width_ (this w)) /\ (2 | height_ (this w)).
Proof.
  intros (Hle & [qw Hw] & [qh Hh]) Hne.
  unfold coarsenable, descend.
  cbn [this set_height_ set_width_ n_grids_ width_ height_].
  set (n := n_grids_ (this w)) in *.
  assert (E : 2 ^ (n - 1 - level) = 2 ^ (n - 1 - (level + 1)) * 2).
  { replace (n - 1 - level) with (Z.succ (n - 1 - (level + 1))) by lia.
    rewrite Z.pow_succ_r by lia. lia. }
  rewrite E in Hw, Hh.
  repeat split.
  - lia.
  - exists qw. rewrite Hw.
    replace (qw * (2 ^ (n - 1 - (level + 1)) * 2))
      with (qw * 2 ^ (n - 1 - (level + 1)) * 2) by lia.
    apply Z.quot_mul. lia.
  - exists qh. rewrite Hh.
    replace (qh * (2 ^ (n - 1 - (level + 1)) * 2))
      with (qh * 2 ^ (n - 1 - (level + 1)) * 2) by lia.
    apply Z.quot_mul. lia.
  - exists (qw * 2 ^ (n - 1 - (level + 1))). lia.
  - exists (qh * 2 ^ (n - 1 - (level + 1))). lia.
Qed.

(** On a grid that can be halved down to the coarsest level, a call that
    returns leaves the object as it found it. *)
Lemma mgv_restores_this : forall fuel x_v b_v lambda level type w r w',
  coarsenable (this w) level ->
  mgv fuel x_v b_v lambda level type w = Returned r w' ->
  this w' = this w.
Proof.
  induction fuel as [|fuel IH]; intros x_v b_v lambda level type w r w' Hc H.
  - discriminate.
  - destruct (Z.eq_dec level (n_grids_ (this w) - 1)) as [Hl|Hl].
    + destruct (mgv_terminal_raw fuel x_v b_v lambda level type w Hl)
        as (field & info & _ & _ & _ & E).
      rewrite E in H. cbn zeta in H.
      destruct (info =? 0); inversion H; reflexivity.
    + rewrite (mgv_recursive _ _ _ _ _ _ _ Hl) in H. cbn zeta in H.
      destruct (gaussSeidel x_v b_v uninit_rho lambda type) as [d1 rho1].
      destruct (myMultiply _ _ rho1 lambda type) as [d2 rho2].
      destruct (coarsenable_descend w level Hc Hl) as (Hc' & Ew & Eh).
      destruct (mgv fuel _ _ lambda (level + 1) type (descend w))
        as [xhat w2| |] eqn:Er; try discriminate.
      apply IH in Er; [|exact Hc'].
      destruct (gaussSeidel _ b_v rho2 lambda type) as [d3 rho3].
      inversion H; subst. cbn [this]. rewrite Er.
      unfold descend. cbn [this set_height_ set_width_ n_grids_ width_ height_
        opt_lambda opt_n_grids opt_type m_output].
      rewrite !quot2_restore by assumption.
      destruct (this w); reflexivity.
Qed.

(** With more fuel than levels below, a call returns or ends the run. *)
Lemma mgv_finishes : forall fuel x_v b_v lambda level type w,
  level <= n_grids_ (this w) - 1 ->
  (Z.to_nat (n_grids_ (this w) - 1 - level) < fuel)%nat ->
  mgv fuel x_v b_v lambda level type w <> Unfinished.
Proof.
  induction fuel as [|fuel IH]; intros x_v b_v lambda level type w Hle Hf.
  - lia.
  - destruct (Z.eq_dec level (n_grids_ (this w) - 1)) as [Hl|Hl].
    + destruct (mgv_terminal_raw fuel x_v b_v lambda level type w Hl)
        as (field & info & _ & _ & _ & E).
      rewrite E. cbn zeta. destruct (info =? 0); discriminate.
    + rewrite (mgv_recursive _ _ _ _ _ _ _ Hl). cbn zeta.
      destruct (gaussSeidel x_v b_v uninit_rho lambda type) as [d1 rho1].
      destruct (myMultiply _ _ rho1 lambda type) as [d2 rho2].
      match goal with
      | |- context [mgv fuel ?z ?r lambda (level + 1) type (descend w)] =>
          pose proof (IH z r lambda (level + 1) type (descend w)) as Hn;
          destruct (mgv fuel z r lambda (level + 1) type (descend w))
            as [xhat w2| |]
      end.
      * destruct (gaussSeidel _ b_v rho2 lambda type). discriminate.
      * discriminate.
      * exfalso. apply Hn; [| |reflexivity];
          unfold descend; cbn [this set_height_ set_width_ n_grids_]; lia.
Qed.

(** The extents of the field that a call returns are those of the
    instance fields at the entry of the call. *)
Lemma mgv_result_extents fuel x_v b_v lambda level type w r w' :
  mgv fuel x_v b_v lambda level type w = Returned r w' ->
  size0 r = height_ (this w) /\ size1 r = width_ (this w).
Proof.
  destruct fuel as [|fuel]; [discriminate|]. intros H.
  destruct (Z.eq_dec level (n_grids_ (this w) - 1)) as [Hl|Hl].
  - destruct (mgv_terminal_raw fuel x_v b_v lambda level type w Hl)
      as (field & info & _ & F0 & F1 & E).
    rewrite E in H. cbn zeta in H.
    destruct (info =? 0); inversion H; subst.
    destruct (set_boundary_spec (size0 b_v) (size1 b_v) field) as (S0 & S1 & _).
    cbn zeta in *. rewrite S0, S1. split; assumption.
  - rewrite (mgv_recursive _ _ _ _ _ _ _ Hl) in H. cbn zeta in H.
    destruct (gaussSeidel x_v b_v uninit_rho lambda type) as [d1 rho1].
    destruct (myMultiply _ _ rho1 lambda type) as [d2 rho2].
    destruct (mgv fuel _ _ lambda (level + 1) type (descend w))
      as [xhat w2| |]; try discriminate.
    destruct (gaussSeidel _ b_v rho2 lambda type) as [d3 rho3].
    inversion H; subst. cbn [with_data size0 size1].
    match goal with
    | |- context [update_loop ?h ?w ?a ?b ?c] =>
        destruct (update_loop_spec h w a b c) as (S0 & S1 & _)
    end.
    cbn zeta in *. rewrite S0, S1. split; reflexivity.
Qed.

(** [processInput] calls [mgv] with instance fields that match the image,
    and so does [mgv] when it calls itself. *)
Lemma descend_dims_match w data :
  dims_match (this (descend w))
    (with_data
       (new_DoubleTensor (Z.quot (height_ (this w)) 2)
                         (Z.quot (width_ (this w)) 2)) data).
Proof. split; reflexivity. Qed.

End SolverFacts.

(** ** The claims on the solver *)

(** The only error on which [mgv] ends the run is the one of line 226,
    with a status that is not 0. *)
Lemma mgv_aborts_on_lapack_only {lib : MultigridLib} :
  forall fuel x_v b_v lambda level type w e w',
  mgv fuel x_v b_v lambda level type w = Aborted e w' ->
  exists info, e = LapackError info /\ info <> 0.
Proof.
  induction fuel as [|fuel IH]; intros x_v b_v lambda level type w e w' E;
    [discriminate|].
  destruct (Z.eq_dec level (n_grids_ (this w) - 1)) as [Hl|Hl].
  - destruct (mgv_terminal_raw fuel x_v b_v lambda level type w Hl)
      as (field & info & _ & _ & _ & E').
    rewrite E' in E. cbn zeta in E.
    destruct (Z.eqb_spec info 0); inversion E; subst.
    exists info. split; [reflexivity | assumption].
  - rewrite (mgv_recursive _ _ _ _ _ _ _ Hl) in E. cbn zeta in E.
    destruct (gaussSeidel x_v b_v uninit_rho lambda type) as [d1 rho1].
    destruct (myMultiply _ _ rho1 lambda type) as [d2 rho2].
    destruct (mgv fuel _ _ lambda (level + 1) type (descend w))
      as [xhat w2|e2 w2|] eqn:Er; try discriminate.
    + destruct (gaussSeidel _ b_v rho2 lambda type). discriminate.
    + inversion E; subst. eapply IH. exact Er.
Qed.

(** C2.  A call of [mgv] whose instance fields [height_] and [width_] are
    the extents of the right-hand side [b_v] (every call that [processInput]
    makes, and every call that [mgv] makes of itself) returns a field with
    the height and the width of [b_v].  The call does return, or ends the
    run on an error of LAPACK, as soon as [level] is not beyond the coarsest
    level and the model is given more fuel than there are levels below. *)
Theorem mgv_result_has_rhs_extents {lib : MultigridLib}
    fuel x_v b_v lambda level type w :
  dims_match (this w) b_v ->
  match mgv fuel x_v b_v lambda level type w with
  | Returned r _ => size0 r = size0 b_v /\ size1 r = size1 b_v
  | Aborted e _ => exists info, e = LapackError info /\ info <> 0
  | Unfinished =>
      n_grids_ (this w) - 1 < level \/
      (fuel <= Z.to_nat (n_grids_ (this w) - 1 - level))%nat
  end.
Proof.
  intros [Hh Hw].
  destruct (mgv fuel x_v b_v lambda level type w) as [r w'|e w'|] eqn:E.
  - apply mgv_result_extents in E. rewrite <- Hh, <- Hw. exact E.
  - exact (mgv_aborts_on_lapack_only _ _ _ _ _ _ _ _ _ E).
  - destruct (Z_le_gt_dec level (n_grids_ (this w) - 1)) as [Hle|Hgt];
      [|left; lia].
    right. apply Nat.nlt_ge. intros Hf.
    exact (mgv_finishes fuel x_v b_v lambda level type w Hle Hf E).
Qed.

Lemma mgv_result_has_rhs_extents_witness :
  dims_match (this (world0 2 4 4)) (constant_field 4 4 1) /\
  match
    mgv (lib := stub_lib (Some dgesv_identity)) 2
      (constant_field 4 4 0) (constant_field 4 4 1) 5 0 1 (world0 2 4 4)
  with
  | Returned r _ =>
      size0 r = size0 (constant_field 4 4 1) /\
      size1 r = size1 (constant_field 4 4 1)
  | Aborted e _ => exists info, e = LapackError info /\ info <> 0
  | Unfinished =>
      n_grids_ (this (world0 2 4 4)) - 1 < 0 \/
      (2 <= Z.to_nat (n_grids_ (this (world0 2 4 4)) - 1 - 0))%nat
  end.
Proof.
  split.
  - split; reflexivity.
  - apply (mgv_result_has_rhs_extents (lib := stub_lib (Some dgesv_identity))).
    split; reflexivity.
Defined.

(** C9 as amended.  When [width_] and [height_] can be halved down to the
    coarsest level (both are multiples of 2 ^ (n_grids_ - 1 - level)), a
    call of [mgv] that returns leaves in [width_] and [height_] the values
    they had on entry. *)
Theorem mgv_restores_width_height {lib : MultigridLib}
    fuel x_v b_v lambda level type w :
  coarsenable (this w) level ->
  match mgv fuel x_v b_v lambda level type w with
  | Returned _ w' =>
      width_ (this w') = width_ (this w) /\
      height_ (this w') = height_ (this w)
  | _ => True
  end.
Proof.
  intros Hc.
  destruct (mgv fuel x_v b_v lambda level type w) as [r w'| |] eqn:E;
    [|exact I|exact I].
  rewrite (mgv_restores_this _ _ _ _ _ _ _ _ _ Hc E). split; reflexivity.
Qed.

Lemma mgv_restores_width_height_witness :
  coarsenable (this (world0 2 4 4)) 0 /\
  match
    mgv (lib := stub_lib (Some dgesv_identity)) 2
      (constant_field 4 4 0) (constant_field 4 4 1) 5 0 1 (world0 2 4 4)
  with
  | Returned _ w' =>
      width_ (this w') = width_ (this (world0 2 4 4)) /\
      height_ (this w') = height_ (this (world0 2 4 4))
  | _ => True
  end.
Proof.
  assert (H : coarsenable (this (world0 2 4 4)) 0).
  { unfold coarsenable. cbn. repeat split; try lia; exists 2; reflexivity. }
  split.
  - exact H.
  - apply (mgv_restores_width_height (lib := stub_lib (Some dgesv_identity))).
    exact H.
Defined.

(** C9 as stated fails.  On a grid of 5 rows and 5 columns with two levels,
    the call at level 0 returns, and [width_] and [height_], 5 on entry, are
    4 on return: 5 / 2 = 2 before the recursive call, 2 * 2 = 4 after it. *)
Lemma mgv_odd_grid_not_restored :
  exists r w',
    mgv (lib := stub_lib (Some dgesv_identity)) 2
      (constant_field 5 5 0) (constant_field 5 5 1) 5 0 1 (world0 2 5 5)
    = Returned r w' /\
    width_ (this (world0 2 5 5)) = 5 /\ height_ (this (world0 2 5 5)) = 5 /\
    width_ (this w') = 4 /\ height_ (this w') = 4 /\
    ~ (width_ (this w') = width_ (this (world0 2 5 5)) /\
       height_ (this w') = height_ (this (world0 2 5 5))).
Proof.
  eexists. eexists. split; [vm_compute; reflexivity|].
  repeat (split; [reflexivity|]).
  cbn. intros [H _]. discriminate H.
Qed.

Lemma dgesv_statuses_app a b :
  dgesv_statuses (a ++ b) = dgesv_statuses a ++ dgesv_statuses b.
Proof.
  induction a as [|c a IH]; [reflexivity|].
  destruct c; cbn; rewrite IH; reflexivity.
Qed.

Lemma mgv_stops_on_dgesv_status {lib : MultigridLib} :
  forall fuel x_v b_v lambda level type w,
  level <= n_grids_ (this w) - 1 ->
  (Z.to_nat (n_grids_ (this w) - 1 - level) < fuel)%nat ->
  exists w' trace,
    outcome_world (mgv fuel x_v b_v lambda level type w) = Some w' /\
    calls w' = calls w ++ trace /\
    (length (dgesv_statuses trace) <= 1)%nat /\
    forall e,
      answer (mgv fuel x_v b_v lambda level type w) = Fatal e <->
      exists info,
        In info (dgesv_statuses trace) /\ info <> 0 /\ e = LapackError info.
Proof.
  induction fuel as [|fuel IH]; intros x_v b_v lambda level type w Hle Hf;
    [lia|].
  destruct (Z.eq_dec level (n_grids_ (this w) - 1)) as [Hl|Hl].
  - destruct (mgv_terminal_raw fuel x_v b_v lambda level type w Hl)
      as (field & info & Hs & _ & _ & E).
    rewrite E. cbn zeta.
    exists (mkWorld (this w) (calls w ++ Call_buildOperator :: solver_calls info)),
      (Call_buildOperator :: solver_calls info).
    assert (Hlen : (length (dgesv_statuses (solver_calls info)) <= 1)%nat).
    { unfold solver_calls. destruct USE_CBLAS; cbn; lia. }
    destruct (Z.eqb_spec info 0) as [Hi|Hi]; cbn [outcome_world answer calls].
    + repeat split; try assumption.
      * discriminate.
      * intros (i & Hin & Hne & _). cbn [dgesv_statuses] in Hin.
        unfold solver_calls in Hin. destruct USE_CBLAS; cbn in Hin;
          [|contradiction].
        destruct Hin as [Hin|[]]. lia.
    + repeat split; try assumption.
      * intros He. inversion He; subst. exists info.
        destruct Hs as [Hs|Hs]; [contradiction|].
        cbn [dgesv_statuses]. rewrite Hs. cbn. auto.
      * intros (i & Hin & Hne & ->). cbn [dgesv_statuses] in Hin.
        destruct Hs as [Hs|Hs]; [contradiction|]. rewrite Hs in Hin.
        cbn in Hin. destruct Hin as [->|[]]. reflexivity.
  - rewrite (mgv_recursive _ _ _ _ _ _ _ Hl). cbn zeta.
    destruct (gaussSeidel x_v b_v uninit_rho lambda type) as [d1 rho1].
    destruct (myMultiply _ _ rho1 lambda type) as [d2 rho2].
    match goal with
    | |- context [mgv fuel ?z ?r lambda (level + 1) type (descend w)] =>
        destruct (IH z r lambda (level + 1) type (descend w))
          as (w2 & trace2 & Ho & Hc & Hlen & Hiff);
        [ unfold descend; cbn [this set_height_ set_width_ n_grids_]; lia
        | unfold descend; cbn [this set_height_ set_width_ n_grids_]; lia
        | destruct (mgv fuel z r lambda (level + 1) type (descend w))
            as [xhat w2'|e2 w2'|] ]
    end.
    + destruct (gaussSeidel _ b_v rho2 lambda type) as [d3 rho3].
      cbn [outcome_world] in Ho. inversion Ho; subst w2'.
      eexists. exists ([Call_gaussSeidel; Call_myMultiply; Call_restriction]
                         ++ trace2 ++ [Call_project; Call_gaussSeidel]).
      split; [reflexivity|]. cbn [calls]. rewrite Hc.
      unfold descend. cbn [calls].
      split; [rewrite <- !app_assoc; reflexivity|].
      rewrite !dgesv_statuses_app. cbn [dgesv_statuses]. rewrite app_nil_r.
      cbn [app]. split; [exact Hlen|].
      intros e. cbn [answer] in *. split; [discriminate|].
      intros Hex. apply Hiff in Hex. discriminate.
    + cbn [outcome_world] in Ho. inversion Ho; subst w2'.
      exists w2, ([Call_gaussSeidel; Call_myMultiply; Call_restriction] ++ trace2).
      split; [reflexivity|]. rewrite Hc. unfold descend. cbn [calls].
      split; [rewrite <- !app_assoc; reflexivity|].
      rewrite !dgesv_statuses_app. cbn [dgesv_statuses app].
      split; [exact Hlen|]. exact Hiff.
    + discriminate.
Qed.

Lemma mgv_calls_grow {lib : MultigridLib} :
  forall fuel x_v b_v lambda level type w w',
  outcome_world (mgv fuel x_v b_v lambda level type w) = Some w' ->
  exists trace, calls w' = calls w ++ trace.
Proof.
  induction fuel as [|fuel IH]; intros x_v b_v lambda level type w w' H;
    [discriminate|].
  destruct (Z.eq_dec level (n_grids_ (this w) - 1)) as [Hl|Hl].
  - destruct (mgv_terminal_raw fuel x_v b_v lambda level type w Hl)
      as (field & info & _ & _ & _ & E).
    rewrite E in H. cbn zeta in H.
    destruct (info =? 0); inversion H; subst; cbn [calls]; eauto.
  - rewrite (mgv_recursive _ _ _ _ _ _ _ Hl) in H. cbn zeta in H.
    destruct (gaussSeidel x_v b_v uninit_rho lambda type) as [d1 rho1].
    destruct (myMultiply _ _ rho1 lambda type) as [d2 rho2].
    match type of H with
    | context [mgv fuel ?z ?r lambda (level + 1) type (descend w)] =>
        pose proof (IH z r lambda (level + 1) type (descend w)) as Hi;
        destruct (mgv fuel z r lambda (level + 1) type (descend w))
          as [xhat w2|e2 w2|]
    end; try discriminate.
    + destruct (gaussSeidel _ b_v rho2 lambda type) as [d3 rho3].
      destruct (Hi w2 eq_refl) as [tr Htr].
      inversion H; subst. cbn [calls]. rewrite Htr. unfold descend.
      cbn [calls]. rewrite <- !app_assoc. eauto.
    + destruct (Hi w2 eq_refl) as [tr Htr].
      inversion H; subst. rewrite Htr. unfold descend.
      cbn [calls]. rewrite <- !app_assoc. eauto.
Qed.






(** ** The boundary of the terminal branch *)

(** On a square grid the loop of lines 229-239 is the boundary of the
    specification. *)
Lemma set_boundary_square {lib : MultigridLib} t :
  size0 t = size1 t ->
  set_boundary (size0 t) (size1 t) t = spec_zero_boundary t.
Proof.
  intros Hsq.
  destruct (set_boundary_spec (size0 t) (size1 t) t) as (S0 & S1 & Hg).
  cbn zeta in *. apply DoubleTensor_eq; [exact S0 | exact S1 |].
  intros y x. rewrite Hg. unfold spec_zero_boundary, on_boundary, in_fieldb.
  cbn [get with_data]. rewrite Hsq. zcases.
Qed.

(** The last row of a grid that is not square, outside its corners, is left
    as the solver delivered it. *)
Lemma set_boundary_misses_last_row {lib : MultigridLib} h w t x :
  2 <= h -> h <> w -> 0 < x < w - 1 ->
  on_boundary h w (h - 1) x = true /\
  get (set_boundary h w t) (h - 1) x = get t (h - 1) x.
Proof.
  intros Hh Hne Hx. split.
  - unfold on_boundary. zcases.
  - destruct (set_boundary_spec h w t) as (_ & _ & Hg). cbn zeta in Hg.
    rewrite Hg. unfold in_fieldb. zcases.
Qed.

Lemma spec_solve_extents {lib : MultigridLib} A rhs :
  size0 (fst (spec_solve A rhs)) = size0 rhs /\
  size1 (fst (spec_solve A rhs)) = size1 rhs.
Proof.
  unfold spec_solve. destruct USE_CBLAS as [dgesv_|]; [|split; reflexivity].
  destruct (dgesv_ _ _ _ _ _ _). split; reflexivity.
Qed.

(** With a single grid on a square image, [mgv] is the terminal case of
    the specification, and the only calls are the assembly of the operator
    and the solver. *)
Lemma mgv_single_grid_square {lib : MultigridLib} fuel x_v b_v lambda type w :
  n_grids_ (this w) = 1 ->
  dims_match (this w) b_v ->
  size0 b_v = size1 b_v ->
  answer (mgv (Datatypes.S fuel) x_v b_v lambda 0 type w) =
    spec_terminal b_v lambda type /\
  exists info,
    outcome_world (mgv (Datatypes.S fuel) x_v b_v lambda 0 type w) =
    Some (mkWorld (this w)
            (calls w ++ Call_buildOperator :: solver_calls info)).
Proof.
  intros Hn Hd Hsq.
  assert (Hl : 0 = n_grids_ (this w) - 1) by lia.
  rewrite (mgv_terminal fuel x_v b_v lambda 0 type w Hl Hd).
  unfold spec_terminal.
  pose proof (spec_solve_extents (spec_assemble b_v lambda type) b_v) as [E0 E1].
  destruct (spec_solve (spec_assemble b_v lambda type) b_v) as [field info].
  cbn [fst] in E0, E1. cbn zeta. split; [|exists info].
  - destruct (info =? 0); cbn [answer]; [|reflexivity].
    rewrite <- E0, <- E1. rewrite set_boundary_square by congruence.
    reflexivity.
  - destruct (info =? 0); reflexivity.
Qed.

(** The terminal branch on a grid that is not square, for every
    implementation of the absent routines: outside the corners, the last row
    of the returned field is the last row of the solver. *)
Lemma mgv_terminal_last_row {lib : MultigridLib}
    fuel x_v b_v lambda level type w x :
  level = n_grids_ (this w) - 1 ->
  dims_match (this w) b_v ->
  2 <= size0 b_v -> size0 b_v <> size1 b_v -> 0 < x < size1 b_v - 1 ->
  match mgv (Datatypes.S fuel) x_v b_v lambda level type w with
  | Returned r _ =>
      get r (size0 b_v - 1) x =
      get (fst (spec_solve (spec_assemble b_v lambda type) b_v))
        (size0 b_v - 1) x
  | _ => True
  end.
Proof.
  intros Hl Hd Hh Hne Hx. rewrite (mgv_terminal _ _ _ _ _ _ _ Hl Hd).
  destruct (spec_solve (spec_assemble b_v lambda type) b_v) as [field info].
  cbn zeta. cbn [fst]. destruct (info =? 0); [|exact I].
  apply set_boundary_misses_last_row; assumption.
Qed.

(** The terminal branch on a square grid: every pixel of the boundary of the
    returned field is 0. *)
Lemma mgv_terminal_square_boundary {lib : MultigridLib}
    fuel x_v b_v lambda level type w y x :
  level = n_grids_ (this w) - 1 ->
  dims_match (this w) b_v ->
  size0 b_v = size1 b_v ->
  in_field (size0 b_v) (size1 b_v) y x ->
  on_boundary (size0 b_v) (size1 b_v) y x = true ->
  match mgv (Datatypes.S fuel) x_v b_v lambda level type w with
  | Returned r _ => get r y x = 0%R
  | _ => True
  end.
Proof.
  intros Hl Hd Hsq Hin Hb. rewrite (mgv_terminal _ _ _ _ _ _ _ Hl Hd).
  destruct (spec_solve (spec_assemble b_v lambda type) b_v) as [field info].
  cbn zeta. destruct (info =? 0); [|exact I].
  destruct (set_boundary_spec (size0 b_v) (size1 b_v) field) as (_ & _ & Hg).
  cbn zeta in Hg. rewrite Hg, (in_fieldb_true _ _ _ _ Hin).
  revert Hb. unfold on_boundary. rewrite Hsq. cbn [andb].
  destruct (y =? 0), (y =? size1 b_v - 1), (x =? 0), (x =? size1 b_v - 1);
    cbn; intros; try reflexivity; discriminate.
Qed.

(** The run on the image of 4 rows and 3 columns with a single grid. *)
Lemma mgv_tall_image_run :
  exists r w',
    mgv (lib := stub_lib (Some dgesv_identity)) 1
      (constant_field 4 3 0) tall_image 5 0 1 (world0 1 3 4)
    = Returned r w' /\
    get r 3 1 = 5%R /\ get r 2 1 = 0%R /\
    calls w' = [Call_buildOperator; Call_dgesv 0].
Proof.
  eexists. eexists. split; [vm_compute; reflexivity|].
  split; [|split]; reflexivity.
Qed.

(** C1 at its failing input.  With a single grid, on the image of 4 rows
    and 3 columns whose pixels are all 5, the field that [mgv] returns
    holds 5 at the pixel (3, 1), which lies on the last row: the loop of
    lines 229-239 tests [y == width - 1] where the last row is
    [y == height - 1]. *)
Theorem mgv_tall_image_last_row_not_zero :
  exists r w',
    mgv (lib := stub_lib (Some dgesv_identity)) 1
      (constant_field 4 3 0) tall_image 5 0 1 (world0 1 3 4)
    = Returned r w' /\
    on_boundary (size0 tall_image) (size1 tall_image) 3 1 = true /\
    get r 3 1 <> 0%R.
Proof.
  destruct mgv_tall_image_run as (r & w' & E & H31 & _ & _).
  exists r, w'. split; [exact E|]. split; [reflexivity|].
  rewrite H31. lra.
Qed.

(** C7 at its failing input.  With a single grid, on the image of 4 rows
    and 3 columns, [mgv] makes no call but the assembly of the operator and
    the solver, yet its answer is not the terminal case of the
    specification: at the pixel (3, 1) of the last row the specification
    has 0 and [mgv] has the 5 of the solver. *)
Theorem mgv_single_grid_tall_image_differs :
  exists r w' s,
    mgv (lib := stub_lib (Some dgesv_identity)) 1
      (constant_field 4 3 0) tall_image 5 0 1 (world0 1 3 4)
    = Returned r w' /\
    calls w' = [Call_buildOperator; Call_dgesv 0] /\
    spec_terminal (lib := stub_lib (Some dgesv_identity)) tall_image 5 1
    = Value s /\
    get s 3 1 = 0%R /\ get r 3 1 = 5%R.
Proof.
  destruct mgv_tall_image_run as (r & w' & E & H31 & _ & Hc).
  exists r, w'. eexists. split; [exact E|]. split; [exact Hc|].
  split; [vm_compute; reflexivity|]. split; [reflexivity | exact H31].
Qed.

(** ** The claims on the driver *)

Section DriverFacts.

Context {lib : MultigridLib}.

Lemma build_result_spec height width image_grid light t :
  let t' := build_result height width image_grid light t in
  size0 t' = size0 t /\ size1 t' = size1 t /\
  forall y x, get t' y x =
    if in_fieldb height width y x
    then if on_boundary height width y x then 1%R
         else if IS_NEAR (get light y x) 0 (1 / 100) then 1%R
         else (get image_grid y x / get light y x)%R
    else get t y x.
Proof.
  cbn zeta. unfold build_result.
  destruct (pixel_loops_spec
    (fun y x t =>
       if (y =? 0) || (y =? height - 1) || (x =? 0) || (x =? width - 1)
       then put t y x 1%R
       else if IS_NEAR (get light y x) 0 (1 / 100)
       then put t y x 1%R
       else put t y x (get image_grid y x / get light y x)%R)
    (fun y x _ =>
       if on_boundary height width y x then 1%R
       else if IS_NEAR (get light y x) 0 (1 / 100) then 1%R
       else (get image_grid y x / get light y x)%R))
    with (h := height) (w := width) (t := t) as (H0 & H1 & Hg).
  - intros y x t0 y' x'. unfold on_boundary.
    destruct ((y =? 0) || (y =? height - 1) || (x =? 0) || (x =? width - 1));
      [reflexivity|].
    destruct (IS_NEAR (get light y x) 0 (1 / 100)); reflexivity.
  - intros y x t0. destruct (_ || _); [reflexivity|].
    destruct (IS_NEAR _ _ _); reflexivity.
  - intros y x t0. destruct (_ || _); [reflexivity|].
    destruct (IS_NEAR _ _ _); reflexivity.
  - cbn zeta in *. repeat split; assumption.
Qed.

Lemma IS_NEAR_false var delta :
  IS_NEAR var 0 delta = false -> (0 <= delta)%R -> (delta < Rabs var)%R.
Proof.
  unfold IS_NEAR. intros H Hd.
  destruct (Rle_dec (0 - delta) var) as [H1|H1];
    [destruct (Rle_dec var (0 + delta)) as [H2|H2]; [discriminate|]|];
    unfold Rabs; destruct (Rcase_abs var); lra.
Qed.

End DriverFacts.

(** C5.  Right after the loops of lines 144-158 (before the clipping step),
    every pixel of the reflectance is: 1 on the border of the image;
    otherwise 1 when the light is within 0.01 of zero; otherwise image /
    light, and the light of that division is at least 0.01 away from 0. *)
Theorem build_result_pixel height width image_grid light t y x :
  in_field height width y x ->
  let r := get (build_result height width image_grid light t) y x in
  if on_boundary height width y x then r = 1%R
  else if IS_NEAR (get light y x) 0 (1 / 100) then r = 1%R
  else r = (get image_grid y x / get light y x)%R /\
       (1 / 100 <= Rabs (get light y x))%R.
Proof.
  intros Hin. cbn zeta.
  destruct (build_result_spec height width image_grid light t) as (_ & _ & Hg).
  cbn zeta in Hg. rewrite Hg, (in_fieldb_true _ _ _ _ Hin).
  destruct (on_boundary height width y x); [reflexivity|].
  destruct (IS_NEAR (get light y x) 0 (1 / 100)) eqn:E; [reflexivity|].
  split; [reflexivity|]. apply Rlt_le. apply IS_NEAR_false; [exact E | lra].
Qed.

Lemma build_result_pixel_witness :
  in_field 4 4 1 1 /\
  let r :=
    get (build_result 4 4 (constant_field 4 4 6) (constant_field 4 4 2)
           (constant_field 4 4 0)) 1 1 in
  if on_boundary 4 4 1 1 then r = 1%R
  else if IS_NEAR (get (constant_field 4 4 2) 1 1) 0 (1 / 100) then r = 1%R
  else r = Rdiv (get (constant_field 4 4 6) 1 1) (get (constant_field 4 4 2) 1 1)
       /\ Rle (1 / 100) (Rabs (get (constant_field 4 4 2) 1 1)).
Proof.
  assert (H : in_field 4 4 1 1) by (unfold in_field; lia).
  split; [exact H|].
  exact (build_result_pixel 4 4 (constant_field 4 4 6) (constant_field 4 4 2)
           (constant_field 4 4 0) 1 1 H).
Defined.

(** [allocateOutput] for every input: when it allocates, it returns true
    whatever the number of channels; the channels are tested only when the
    output in place has the extents of the input. *)
Lemma allocateOutput_spec {lib : MultigridLib} (input : Tensor) w :
  allocateOutput input w =
  if output_mismatch (m_output (this w)) input
  then Returned true
         (mkWorld
            (set_m_output
               (Some (new_ShortTensor (size input 0) (size input 1)
                        (size input 2))) (this w))
            (calls w))
  else Returned (size input 2 =? 1) w.
Proof.
  unfold allocateOutput. run_monad.
  destruct (output_mismatch (m_output (this w)) input); run_monad;
    [reflexivity|].
  destruct w. destruct (size input 2 =? 1); reflexivity.
Qed.

(** C3 at its failing input.  On a newly constructed object, a colour image
    of 3 channels passes [checkInput], which does not look at the channels,
    and [allocateOutput], whose first branch allocates the output and
    returns true before the test of the channels is reached: [process]
    goes on with [processInput].  Once the output is allocated, the same
    image is refused by the test under "Accept only gray images". *)
Theorem process_accepts_colour_image_on_first_call {lib : MultigridLib} fuel :
  checkInput rgb_image = true /\
  exists w',
    allocateOutput rgb_image fresh_world = Returned true w' /\
    process fuel rgb_image fresh_world = processInput fuel rgb_image w' /\
    allocateOutput rgb_image w' = Returned false w' /\
    process fuel rgb_image w' = Returned false w'.
Proof.
  split; [reflexivity|].
  eexists. split; [reflexivity|]. split; [reflexivity|].
  split; reflexivity.
Qed.

(** On the colour image the first call of [process] runs the V-cycle. *)
Lemma process_colour_image_run :
  exists w',
    process (lib := stub_lib (Some dgesv_identity)) 1 rgb_image fresh_world
    = Returned true w' /\
    calls w' = [Call_buildOperator; Call_dgesv 0; Call_ipRescaleGray].
Proof.
  eexists. split; [vm_compute; reflexivity | reflexivity].
Qed.

(** The same run on a gray image; the second call does not allocate and
    accepts the image again. *)
Lemma process_gray_image_run :
  exists w',
    process (lib := stub_lib (Some dgesv_identity)) 1 gray_image fresh_world
    = Returned true w' /\
    calls w' = [Call_buildOperator; Call_dgesv 0; Call_ipRescaleGray] /\
    allocateOutput (lib := stub_lib (Some dgesv_identity)) gray_image w'
    = Returned true w'.
Proof.
  eexists. split; [vm_compute; reflexivity|]. split; [reflexivity|].
  vm_compute. reflexivity.
Qed.

(** A gray image passes both gates, whatever the object holds. *)
Lemma gates_accept_gray_image {lib : MultigridLib} (input : Tensor) w :
  nDimension input = 3 -> getDatatype input = Short -> size input 2 = 1 ->
  checkInput input = true /\
  exists w', allocateOutput input w = Returned true w'.
Proof.
  intros Hn Hd Hs. split.
  - unfold checkInput. rewrite Hn, Hd. reflexivity.
  - unfold allocateOutput. run_monad.
    destruct (output_mismatch (m_output (this w)) input); run_monad.
    + eexists. reflexivity.
    + rewrite Hs. cbn. eexists. reflexivity.
Qed.

(** Lines 115-136: [processInput] calls [mgv] with [height_] and [width_]
    set to the extents of the image grid. *)
Lemma processInput_dims_match {lib : MultigridLib} (input : Tensor) t n :
  dims_match
    (set_width_ (size input 1) (set_height_ (size input 0) (set_n_grids_ n t)))
    (copy_image (new_DoubleTensor (size input 0) (size input 1)) input).
Proof. split; reflexivity. Qed.

(** The field that [processInput] clips has the extents of the image. *)
Lemma reflectance_extents {lib : MultigridLib} fuel input w :
  match reflectance fuel input w with
  | Returned r _ => size0 r = size input 0 /\ size1 r = size input 1
  | _ => True
  end.
Proof.
  unfold reflectance. run_monad.
  destruct (mgv fuel _ _ _ 0 _ _) as [light w'| |]; [|exact I|exact I].
  match goal with
  | |- context [cutExtremum ?t 4 0] =>
      destruct (cutExtremum_spec t 4 0) as (_ & S0 & S1 & _);
      destruct (cutExtremum t 4 0) as [b1 out]
  end.
  cbn zeta in *. cbn [snd] in S0, S1. run_monad.
  match type of S0 with
  | _ = size0 (build_result ?h ?w ?i ?l ?t) =>
      destruct (build_result_spec h w i l t) as (B0 & B1 & _)
  end.
  cbn zeta in *. rewrite S0, S1, B0, B1. split; reflexivity.
Qed.

(** C10 as amended.  [cutExtremum] clips every pixel to the bounds
    [mean - k std, mean + k std] that it computes by dividing the sum of the
    pixels by [wxh] and the sum of the squared deviations by [wxh - 1].  For
    a field whose number of pixels fits in an [int], [wxh] is
    [width * height], and both denominators are not zero exactly when the
    field has at least 2 pixels.  No gate asks for 2 pixels: a gray image of
    a single pixel passes [checkInput] and [allocateOutput], and the field
    that [processInput] has clipped when it returns is one for which the
    denominator of the variance is zero. *)
Theorem cutExtremum_denominators {lib : MultigridLib}
    (data : DoubleTensor) (k p : Z) :
  0 <= size0 data -> 0 <= size1 data ->
  size1 data * size0 data <= INT_MAX ->
  let wxh := size1 data * size0 data in
  let mean := (pixel_sum data / IZR wxh)%R in
  let std := sqrt (square_sum data mean / IZR (wxh - 1)) in
  (forall y x, in_field (size0 data) (size1 data) y x ->
     get (snd (cutExtremum data k p)) y x =
     clamp (mean + IZR k * std) (mean - IZR k * std) (get data y x)) /\
  (2 <= wxh <-> IZR wxh <> 0%R /\ IZR (wxh - 1) <> 0%R) /\
  checkInput one_pixel_image = true /\
  forall fuel w,
    (exists w', allocateOutput one_pixel_image w = Returned true w') /\
    match reflectance fuel one_pixel_image w with
    | Returned r _ =>
        field_var r = Rdiv (square_sum r (field_mean r)) 0
    | _ => True
    end.
Proof.
  intros H0 H1 Hmax. cbn zeta.
  assert (Hwxh : int_of (size1 data * size0 data) = size1 data * size0 data)
    by (apply int_of_in_range; unfold INT_MAX in *; nia).
  assert (Hwxh1 : int_of (size1 data * size0 data - 1)
                  = size1 data * size0 data - 1)
    by (apply int_of_in_range; unfold INT_MAX in *; nia).
  assert (Hm : field_mean data
               = (pixel_sum data / IZR (size1 data * size0 data))%R).
  { unfold field_mean. cbn zeta. rewrite Hwxh. reflexivity. }
  assert (Hs : field_std_dev data
               = sqrt (square_sum data
                         (pixel_sum data / IZR (size1 data * size0 data))
                       / IZR (size1 data * size0 data - 1))).
  { unfold field_std_dev, field_var. cbn zeta.
    rewrite Hm, Hwxh, Hwxh1. reflexivity. }
  split.
  - intros y x Hyx.
    destruct (cutExtremum_spec data k p) as (_ & _ & _ & Hg). cbn zeta in Hg.
    rewrite Hg, (in_fieldb_true _ _ _ _ Hyx), Hm, Hs. reflexivity.
  - split.
    + split.
      * intros H. split; apply not_0_IZR; lia.
      * intros [Ha Hb].
        assert (size1 data * size0 data <> 0)
          by (intros E; rewrite E in Ha; auto).
        assert (size1 data * size0 data - 1 <> 0)
          by (intros E; rewrite E in Hb; auto).
        nia.
    + split; [reflexivity|]. intros fuel w. split.
      * apply gates_accept_gray_image; reflexivity.
      * pose proof (reflectance_extents fuel one_pixel_image w) as H.
        destruct (reflectance fuel one_pixel_image w) as [r w'| |];
          [|exact I|exact I].
        destruct H as [E0 E1]. unfold field_var. cbn zeta.
        rewrite E0, E1. reflexivity.
Qed.

Lemma cutExtremum_denominators_witness :
  0 <= size0 spike /\ 0 <= size1 spike /\
  size1 spike * size0 spike <= INT_MAX /\
  in_field (size0 spike) (size1 spike) 2 2 /\
  get spike 2 2 = 26%R /\
  get (snd (cutExtremum spike 4 0)) 2 2 = 22%R.
Proof.
  assert (H0 : 0 <= size0 spike) by (cbn; lia).
  assert (H1 : 0 <= size1 spike) by (cbn; lia).
  assert (Hmax : size1 spike * size0 spike <= INT_MAX)
    by (unfold INT_MAX; cbn; lia).
  assert (Hin : in_field (size0 spike) (size1 spike) 2 2)
    by (unfold in_field; cbn; lia).
  split; [exact H0|]. split; [exact H1|]. split; [exact Hmax|].
  split; [exact Hin|]. split; [reflexivity|].
  destruct (cutExtremum_denominators (lib := stub_lib None) spike 4 0
              H0 H1 Hmax) as (Hg & _).
  rewrite (Hg 2 2 Hin).
  change (size1 spike * size0 spike) with 25.
  change (25 - 1) with 24.
  assert (Hsum : pixel_sum spike = 50%R)
    by (unfold pixel_sum, for_loop; simpl; lra).
  rewrite Hsum.
  replace (50 / 25)%R with 2%R by lra.
  assert (Hsq : square_sum spike 2 = 600%R)
    by (unfold square_sum, for_loop; simpl; lra).
  rewrite Hsq.
  replace (600 / 24)%R with (5 * 5)%R by lra.
  rewrite sqrt_square by lra.
  unfold clamp. cbn [spike get]. cbn.
  destruct (Rgt_dec _ _); destruct (Rlt_dec _ _); lra.
Defined.

(** C10 as stated fails.  A field of 6700417 rows and 641 columns has
    641 * 6700417 = 2 ^ 32 + 1 pixels: the [int] product of line 331 wraps
    to [wxh = 1], and line 358 divides the variance by [wxh - 1 = 0],
    although the field has more than 2 pixels. *)
Lemma cutExtremum_wrapped_pixel_count :
  let data := mkDoubleTensor 6700417 641 (fun _ _ => 0%R) in
  0 <= size0 data <= INT_MAX /\ 0 <= size1 data <= INT_MAX /\
  2 <= size1 data * size0 data /\
  int_of (size1 data * size0 data) = 1 /\
  field_var data = Rdiv (square_sum data (field_mean data)) 0 /\
  ~ (IZR (int_of (size1 data * size0 data)) <> 0%R /\
     IZR (int_of (int_of (size1 data * size0 data) - 1)) <> 0%R).
Proof.
  cbn zeta. cbn [size0 size1]. unfold INT_MAX.
  split; [lia|]. split; [lia|]. split; [lia|].
  split; [reflexivity|]. split.
  - unfold field_var. cbn zeta. cbn [size0 size1].
    change (int_of (int_of (641 * 6700417) - 1)) with 0. reflexivity.
  - intros [_ H]. apply H.
    change (int_of (int_of (641 * 6700417) - 1)) with 0. reflexivity.
Qed.

(** ** The claim on the clipping step *)




(** ** The fatal errors *)

(** [processInput] ends the run on the error of [mgv] only: the clipping
    step returns true and the rescaling reports success. *)
Lemma processInput_aborts_on_lapack_only {lib : MultigridLib}
    fuel input w e w' :
  processInput fuel input w = Aborted e w' ->
  exists info, e = LapackError info /\ info <> 0.
Proof.
  unfold processInput, reflectance. run_monad.
  destruct (mgv fuel _ _ _ 0 _ _) as [light w1|e1 w1|] eqn:E.
  - destruct (cutExtremum _ 4 0) as [b1 out]. run_monad.
    unfold ipRescaleGray_process. run_monad. discriminate.
  - intros H. inversion H; subst.
    exact (mgv_aborts_on_lapack_only _ _ _ _ _ _ _ _ _ E).
  - discriminate.
Qed.

(** C8.  A call of [mgv] that is not beyond the coarsest level stops, after
    at most one call of [dgesv_] (no second attempt, no other solver); it
    ends the run on a fatal error exactly when that call reported a status
    [info] other than 0, and the error is the one of line 226 with that
    status.  The clipping step always returns true, and [processInput] as a
    whole ends the run on no other error than that of LAPACK. *)
Theorem mgv_fatal_iff_dgesv_fails {lib : MultigridLib}
    fuel x_v b_v lambda level type w :
  level <= n_grids_ (this w) - 1 ->
  (Z.to_nat (n_grids_ (this w) - 1 - level) < fuel)%nat ->
  (exists w' trace,
     outcome_world (mgv fuel x_v b_v lambda level type w) = Some w' /\
     calls w' = calls w ++ trace /\
     (length (dgesv_statuses trace) <= 1)%nat /\
     forall e,
       answer (mgv fuel x_v b_v lambda level type w) = Fatal e <->
       exists info,
         In info (dgesv_statuses trace) /\ info <> 0 /\ e = LapackError info)
  /\ (forall data k p, fst (cutExtremum data k p) = true)
  /\ (forall fuel' input w0,
        match processInput fuel' input w0 with
        | Aborted e _ => exists info, e = LapackError info /\ info <> 0
        | _ => True
        end).
Proof.
  intros Hle Hf. split; [|split].
  - exact (mgv_stops_on_dgesv_status fuel x_v b_v lambda level type w Hle Hf).
  - intros data k p. reflexivity.
  - intros fuel' input w0.
    destruct (processInput fuel' input w0) as [b w1|e w1|] eqn:E;
      [exact I| |exact I].
    exact (processInput_aborts_on_lapack_only _ _ _ _ _ E).
Qed.

Lemma mgv_fatal_iff_dgesv_fails_witness :
  0 <= n_grids_ (this (world0 2 4 4)) - 1 /\
  (Z.to_nat (n_grids_ (this (world0 2 4 4)) - 1 - 0) < 2)%nat /\
  exists w' trace,
    outcome_world
      (mgv (lib := stub_lib (Some dgesv_singular)) 2
         (constant_field 4 4 0) (constant_field 4 4 1) 5 0 1 (world0 2 4 4))
    = Some w' /\
    calls w' = calls (world0 2 4 4) ++ trace /\
    (length (dgesv_statuses trace) <= 1)%nat /\
    forall e,
      answer
        (mgv (lib := stub_lib (Some dgesv_singular)) 2
           (constant_field 4 4 0) (constant_field 4 4 1) 5 0 1 (world0 2 4 4))
      = Fatal e <->
      exists info,
        In info (dgesv_statuses trace) /\ info <> 0 /\ e = LapackError info.
Proof.
  assert (Hle : 0 <= n_grids_ (this (world0 2 4 4)) - 1) by (cbn; lia).
  assert (Hf : (Z.to_nat (n_grids_ (this (world0 2 4 4)) - 1 - 0) < 2)%nat)
    by (cbn; lia).
  split; [exact Hle|]. split; [exact Hf|].
  exact (proj1 (mgv_fatal_iff_dgesv_fails
                  (lib := stub_lib (Some dgesv_singular)) 2
                  (constant_field 4 4 0) (constant_field 4 4 1) 5 0 1
                  (world0 2 4 4) Hle Hf)).
Defined.

(** That run does end on the error of LAPACK, after the three calls of the
    fine level, the assembly of the operator and the one call of [dgesv_]. *)
Lemma mgv_singular_run :
  exists w',
    mgv (lib := stub_lib (Some dgesv_singular)) 2
      (constant_field 4 4 0) (constant_field 4 4 1) 5 0 1 (world0 2 4 4)
    = Aborted (LapackError 3) w' /\
    calls w' =
      [Call_gaussSeidel; Call_myMultiply; Call_restriction;
       Call_buildOperator; Call_dgesv 3].
Proof.
  eexists. split; [vm_compute; reflexivity | reflexivity].
Qed.

(** * Further properties of the code *)

(** ** The recursion of [mgv] *)

(** Beyond the coarsest level the test of line 203 never holds again, and
    each call makes the next one. *)
Lemma mgv_beyond_coarsest {lib : MultigridLib} :
  forall fuel x_v b_v lambda level type w,
  n_grids_ (this w) - 1 < level ->
  mgv fuel x_v b_v lambda level type w = Unfinished.
Proof.
  induction fuel as [|fuel IH]; intros x_v b_v lambda level type w Hl;
    [reflexivity|].
  rewrite mgv_recursive by lia. cbn zeta.
  destruct (gaussSeidel x_v b_v uninit_rho lambda type) as [d1 rho1].
  destruct (myMultiply _ _ rho1 lambda type) as [d2 rho2].
  rewrite IH; [reflexivity|].
  unfold descend. cbn [this set_height_ set_width_ n_grids_]. lia.
Qed.

(** X1.  When the option [n_grids] is 0 or negative, [processInput] calls
    [mgv] at level 0, beyond [n_grids_ - 1]: the test [level == n_grids_-1]
    fails at every level and the recursion has no end, whatever depth the
    model is given. *)
Theorem processInput_n_grids_not_positive {lib : MultigridLib}
    fuel input w :
  opt_n_grids (this w) <= 0 ->
  processInput fuel input w = Unfinished.
Proof.
  intros Hn. unfold processInput, reflectance. run_monad.
  rewrite mgv_beyond_coarsest; [reflexivity|].
  cbn [this set_height_ set_width_ set_n_grids_ set_m_output n_grids_]. lia.
Qed.

Lemma processInput_n_grids_not_positive_witness :
  opt_n_grids (this (world_with_n_grids 0)) <= 0 /\
  processInput (lib := stub_lib (Some dgesv_identity)) 7 gray_image
    (world_with_n_grids 0) = Unfinished.
Proof.
  assert (H : opt_n_grids (this (world_with_n_grids 0)) <= 0) by (cbn; lia).
  split; [exact H|].
  exact (processInput_n_grids_not_positive
           (lib := stub_lib (Some dgesv_identity)) 7 gray_image
           (world_with_n_grids 0) H).
Defined.

Lemma mgv_settings_kept {lib : MultigridLib} :
  forall fuel x_v b_v lambda level type w,
  match outcome_world (mgv fuel x_v b_v lambda level type w) with
  | Some w' => same_settings (this w) (this w')
  | None => True
  end.
Proof.
  induction fuel as [|fuel IH]; intros x_v b_v lambda level type w;
    [exact I|].
  destruct (Z.eq_dec level (n_grids_ (this w) - 1)) as [Hl|Hl].
  - destruct (mgv_terminal_raw fuel x_v b_v lambda level type w Hl)
      as (field & info & _ & _ & _ & E).
    rewrite E. cbn zeta.
    destruct (info =? 0); cbn [outcome_world this]; repeat split.
  - rewrite (mgv_recursive _ _ _ _ _ _ _ Hl). cbn zeta.
    destruct (gaussSeidel x_v b_v uninit_rho lambda type) as [d1 rho1].
    destruct (myMultiply _ _ rho1 lambda type) as [d2 rho2].
    match goal with
    | |- context [mgv fuel ?z ?r lambda (level + 1) type (descend w)] =>
        pose proof (IH z r lambda (level + 1) type (descend w)) as Hi;
        destruct (mgv fuel z r lambda (level + 1) type (descend w))
          as [xhat w2|e2 w2|]
    end.
    + destruct (gaussSeidel _ b_v rho2 lambda type) as [d3 rho3].
      cbn [outcome_world] in *. destruct Hi as (H1 & H2 & H3 & H4 & H5).
      unfold descend in *.
      cbn [this set_height_ set_width_ opt_lambda opt_n_grids opt_type
           m_output n_grids_] in *.
      repeat split; assumption.
    + cbn [outcome_world] in *. destruct Hi as (H1 & H2 & H3 & H4 & H5).
      unfold descend in *.
      cbn [this set_height_ set_width_ opt_lambda opt_n_grids opt_type
           m_output n_grids_] in *.
      repeat split; assumption.
    + exact I.
Qed.

(** X2.  Whether it returns or ends the run, [mgv] writes no field of the
    object but [width_] and [height_]: the options, the output slot and
    [n_grids_] are those of the entry. *)
Theorem mgv_keeps_settings {lib : MultigridLib}
    fuel x_v b_v lambda level type w :
  match outcome_world (mgv fuel x_v b_v lambda level type w) with
  | Some w' => same_settings (this w) (this w')
  | None => True
  end.
Proof. apply mgv_settings_kept. Qed.

(** X3.  A call of [mgv] that returns never leaves [width_] or [height_]
    larger than it found them, whatever their parity: halving rounds down
    and doubling gives back at most the value halved. *)
Theorem mgv_never_grows_grid {lib : MultigridLib} :
  forall fuel x_v b_v lambda level type w,
  0 <= width_ (this w) -> 0 <= height_ (this w) ->
  match mgv fuel x_v b_v lambda level type w with
  | Returned _ w' =>
      0 <= width_ (this w') <= width_ (this w) /\
      0 <= height_ (this w') <= height_ (this w)
  | _ => True
  end.
Proof.
  induction fuel as [|fuel IH]; intros x_v b_v lambda level type w Hw Hh;
    [exact I|].
  destruct (Z.eq_dec level (n_grids_ (this w) - 1)) as [Hl|Hl].
  - destruct (mgv_terminal_raw fuel x_v b_v lambda level type w Hl)
      as (field & info & _ & _ & _ & E).
    rewrite E. cbn zeta. destruct (info =? 0); [|exact I].
    cbn [this]. lia.
  - rewrite (mgv_recursive _ _ _ _ _ _ _ Hl). cbn zeta.
    destruct (gaussSeidel x_v b_v uninit_rho lambda type) as [d1 rho1].
    destruct (myMultiply _ _ rho1 lambda type) as [d2 rho2].
    assert (Qw : 0 <= Z.quot (width_ (this w)) 2 /\
                 Z.quot (width_ (this w)) 2 * 2 <= width_ (this w)).
    { rewrite Z.quot_div_nonneg by lia. split.
      - apply Z.div_pos; lia.
      - pose proof (Z.mul_div_le (width_ (this w)) 2). lia. }
    assert (Qh : 0 <= Z.quot (height_ (this w)) 2 /\
                 Z.quot (height_ (this w)) 2 * 2 <= height_ (this w)).
    { rewrite Z.quot_div_nonneg by lia. split.
      - apply Z.div_pos; lia.
      - pose proof (Z.mul_div_le (height_ (this w)) 2). lia. }
    match goal with
    | |- context [mgv fuel ?z ?r lambda (level + 1) type (descend w)] =>
        pose proof (IH z r lambda (level + 1) type (descend w)) as Hi;
        destruct (mgv fuel z r lambda (level + 1) type (descend w))
          as [xhat w2|e2 w2|]
    end; [|exact I|exact I].
    destruct (gaussSeidel _ b_v rho2 lambda type) as [d3 rho3].
    unfold descend in Hi. cbn [this set_height_ set_width_ width_ height_] in *.
    destruct Hi as [Hi1 Hi2]; [lia|lia|]. lia.
Qed.

Lemma mgv_never_grows_grid_witness :
  0 <= width_ (this (world0 2 5 5)) /\ 0 <= height_ (this (world0 2 5 5)) /\
  match
    mgv (lib := stub_lib (Some dgesv_identity)) 2
      (constant_field 5 5 0) (constant_field 5 5 1) 5 0 1 (world0 2 5 5)
  with
  | Returned _ w' =>
      0 <= width_ (this w') <= width_ (this (world0 2 5 5)) /\
      0 <= height_ (this w') <= height_ (this (world0 2 5 5))
  | _ => True
  end.
Proof.
  assert (Hw : 0 <= width_ (this (world0 2 5 5))) by (cbn; lia).
  assert (Hh : 0 <= height_ (this (world0 2 5 5))) by (cbn; lia).
  split; [exact Hw|]. split; [exact Hh|].
  exact (mgv_never_grows_grid (lib := stub_lib (Some dgesv_identity)) 2
           (constant_field 5 5 0) (constant_field 5 5 1) 5 0 1
           (world0 2 5 5) Hw Hh).
Defined.

Lemma levels_below_descend w level :
  level <= n_grids_ (this w) - 1 -> level <> n_grids_ (this w) - 1 ->
  levels_below (this w) level =
  Datatypes.S (levels_below (this (descend w)) (level + 1)).
Proof.
  intros Hle Hne. unfold levels_below, descend.
  cbn [this set_height_ set_width_ n_grids_]. lia.
Qed.

(** X4.  The calls of a V-cycle have the shape of a V.  With [d] levels
    below the entry level, a call that returns has made, in this order: [d]
    times smoother, multiplier, restriction; the assembly of the operator
    and the solver, once; [d] times prolongation, smoother.  A call that
    ends the run has made the way down, the assembly and the failing call
    of the solver, and nothing after it. *)
Theorem mgv_calls_are_a_V {lib : MultigridLib} :
  forall fuel x_v b_v lambda level type w,
  level <= n_grids_ (this w) - 1 ->
  match mgv fuel x_v b_v lambda level type w with
  | Returned _ w' =>
      calls w' =
        calls w ++ descent_calls (levels_below (this w) level)
          ++ Call_buildOperator :: solver_calls 0
          ++ ascent_calls (levels_below (this w) level)
  | Aborted e w' =>
      exists info,
        e = LapackError info /\
        calls w' =
          calls w ++ descent_calls (levels_below (this w) level)
            ++ [Call_buildOperator; Call_dgesv info]
  | Unfinished => True
  end.
Proof.
  induction fuel as [|fuel IH]; intros x_v b_v lambda level type w Hle;
    [exact I|].
  destruct (Z.eq_dec level (n_grids_ (this w) - 1)) as [Hl|Hl].
  - destruct (mgv_terminal_raw fuel x_v b_v lambda level type w Hl)
      as (field & info & Hs & _ & _ & E).
    rewrite E. cbn zeta. unfold levels_below.
    replace (Z.to_nat (n_grids_ (this w) - 1 - level)) with O by lia.
    cbn [descent_calls ascent_calls app calls].
    destruct (Z.eqb_spec info 0) as [Hi|Hi].
    + subst info. rewrite app_nil_r. reflexivity.
    + exists info. destruct Hs as [Hs|Hs]; [contradiction|].
      rewrite Hs. split; reflexivity.
  - rewrite (mgv_recursive _ _ _ _ _ _ _ Hl). cbn zeta.
    destruct (gaussSeidel x_v b_v uninit_rho lambda type) as [d1 rho1].
    destruct (myMultiply _ _ rho1 lambda type) as [d2 rho2].
    rewrite (levels_below_descend w level Hle Hl).
    match goal with
    | |- context [mgv fuel ?z ?r lambda (level + 1) type (descend w)] =>
        pose proof (IH z r lambda (level + 1) type (descend w)) as Hi;
        destruct (mgv fuel z r lambda (level + 1) type (descend w))
          as [xhat w2|e2 w2|]
    end; [| |exact I].
    + destruct (gaussSeidel _ b_v rho2 lambda type) as [d3 rho3].
      cbn [calls]. rewrite Hi
        by (unfold descend; cbn [this set_height_ set_width_ n_grids_]; lia).
      unfold descend at 1. cbn [calls descent_calls ascent_calls].
      repeat (rewrite <- app_assoc || rewrite <- app_comm_cons).
      cbn [app]. reflexivity.
    + destruct Hi as (info & He & Hc);
        [unfold descend; cbn [this set_height_ set_width_ n_grids_]; lia|].
      exists info. split; [exact He|]. rewrite Hc.
      unfold descend at 1. cbn [calls descent_calls].
      repeat (rewrite <- app_assoc || rewrite <- app_comm_cons).
      cbn [app]. reflexivity.
Qed.

Lemma mgv_calls_are_a_V_witness :
  0 <= n_grids_ (this (world0 2 4 4)) - 1 /\
  match
    mgv (lib := stub_lib (Some dgesv_identity)) 2
      (constant_field 4 4 0) (constant_field 4 4 1) 5 0 1 (world0 2 4 4)
  with
  | Returned _ w' =>
      calls w' =
        [Call_gaussSeidel; Call_myMultiply; Call_restriction;
         Call_buildOperator; Call_dgesv 0; Call_project; Call_gaussSeidel]
  | _ => False
  end.
Proof.
  assert (H : 0 <= n_grids_ (this (world0 2 4 4)) - 1) by (cbn; lia).
  split; [exact H|].
  pose proof (mgv_calls_are_a_V (lib := stub_lib (Some dgesv_identity)) 2
                (constant_field 4 4 0) (constant_field 4 4 1) 5 0 1
                (world0 2 4 4) H) as E.
  destruct (mgv (lib := stub_lib (Some dgesv_identity)) 2
              (constant_field 4 4 0) (constant_field 4 4 1) 5 0 1
              (world0 2 4 4)) as [r w'|e w'|] eqn:Er.
  - exact E.
  - vm_compute in Er. discriminate Er.
  - vm_compute in Er. discriminate Er.
Defined.

(** X5.  In a build without [USE_CBLAS] the call of [dgesv_] is compiled
    out and [info] keeps its initial 0: [mgv] never ends the run, and it
    never calls the solver. *)
Theorem mgv_without_cblas_never_aborts {lib : MultigridLib} :
  forall fuel x_v b_v lambda level type w,
  USE_CBLAS = None ->
  match mgv fuel x_v b_v lambda level type w with
  | Returned _ w' =>
      exists trace, calls w' = calls w ++ trace /\ dgesv_statuses trace = []
  | Aborted _ _ => False
  | Unfinished => True
  end.
Proof.
  induction fuel as [|fuel IH]; intros x_v b_v lambda level type w Hnone;
    [exact I|].
  destruct (Z.eq_dec level (n_grids_ (this w) - 1)) as [Hl|Hl].
  - destruct (mgv_terminal_raw fuel x_v b_v lambda level type w Hl)
      as (field & info & Hs & _ & _ & E).
    rewrite E. cbn zeta.
    assert (Hi : info = 0).
    { destruct Hs as [Hs|Hs]; [exact Hs|].
      unfold solver_calls in Hs. rewrite Hnone in Hs. discriminate Hs. }
    subst info. cbn [Z.eqb calls].
    exists (Call_buildOperator :: solver_calls 0). split; [reflexivity|].
    unfold solver_calls. rewrite Hnone. reflexivity.
  - rewrite (mgv_recursive _ _ _ _ _ _ _ Hl). cbn zeta.
    destruct (gaussSeidel x_v b_v uninit_rho lambda type) as [d1 rho1].
    destruct (myMultiply _ _ rho1 lambda type) as [d2 rho2].
    match goal with
    | |- context [mgv fuel ?z ?r lambda (level + 1) type (descend w)] =>
        pose proof (IH z r lambda (level + 1) type (descend w) Hnone) as Hi;
        destruct (mgv fuel z r lambda (level + 1) type (descend w))
          as [xhat w2|e2 w2|]
    end; [|contradiction|exact I].
    destruct (gaussSeidel _ b_v rho2 lambda type) as [d3 rho3].
    destruct Hi as (tr & Hc & Hst). cbn [calls].
    exists ([Call_gaussSeidel; Call_myMultiply; Call_restriction] ++ tr
              ++ [Call_project; Call_gaussSeidel]).
    split.
    + rewrite Hc. unfold descend. cbn [calls]. rewrite <- !app_assoc.
      reflexivity.
    + rewrite !dgesv_statuses_app, Hst. reflexivity.
Qed.

Lemma mgv_without_cblas_never_aborts_witness :
  USE_CBLAS (MultigridLib := stub_lib None) = None /\
  match
    mgv (lib := stub_lib None) 2
      (constant_field 4 4 0) (constant_field 4 4 1) 5 0 1 (world0 2 4 4)
  with
  | Returned _ w' =>
      exists trace,
        calls w' = calls (world0 2 4 4) ++ trace /\ dgesv_statuses trace = []
  | Aborted _ _ => False
  | Unfinished => True
  end.
Proof.
  split; [reflexivity|].
  exact (mgv_without_cblas_never_aborts (lib := stub_lib None) 2
           (constant_field 4 4 0) (constant_field 4 4 1) 5 0 1
           (world0 2 4 4) eq_refl).
Defined.

(** ** The terminal branch *)

(** X6.  Whatever the extents of the grid, the field that the terminal
    branch returns is 0 on its first row, its first column and its last
    column; every pixel away from these and from the row [width - 1] holds
    what the solver delivered. *)
Theorem mgv_terminal_pixels {lib : MultigridLib}
    fuel x_v b_v lambda level type w y x :
  level = n_grids_ (this w) - 1 ->
  dims_match (this w) b_v ->
  in_field (size0 b_v) (size1 b_v) y x ->
  match mgv (Datatypes.S fuel) x_v b_v lambda level type w with
  | Returned r _ =>
      (y = 0 \/ x = 0 \/ x = size1 b_v - 1 -> get r y x = 0%R) /\
      (y <> 0 -> x <> 0 -> x <> size1 b_v - 1 -> y <> size1 b_v - 1 ->
       get r y x =
       get (fst (spec_solve (spec_assemble b_v lambda type) b_v)) y x)
  | _ => True
  end.
Proof.
  intros Hl Hd Hin. rewrite (mgv_terminal _ _ _ _ _ _ _ Hl Hd).
  destruct (spec_solve (spec_assemble b_v lambda type) b_v) as [field info].
  cbn zeta. cbn [fst]. destruct (info =? 0); [|exact I].
  destruct (set_boundary_spec (size0 b_v) (size1 b_v) field) as (_ & _ & Hg).
  cbn zeta in Hg. rewrite Hg, (in_fieldb_true _ _ _ _ Hin). cbn [andb].
  split.
  - intros H. zcases.
  - intros H1 H2 H3 H4. zcases.
Qed.

Lemma mgv_terminal_pixels_witness :
  0 = n_grids_ (this (world0 1 3 4)) - 1 /\
  dims_match (this (world0 1 3 4)) tall_image /\
  in_field (size0 tall_image) (size1 tall_image) 1 1 /\
  match
    mgv (lib := stub_lib (Some dgesv_identity)) 1
      (constant_field 4 3 0) tall_image 5 0 1 (world0 1 3 4)
  with
  | Returned r _ =>
      (1 = 0 \/ 1 = 0 \/ 1 = size1 tall_image - 1 -> get r 1 1 = 0%R) /\
      (1 <> 0 -> 1 <> 0 -> 1 <> size1 tall_image - 1 ->
       1 <> size1 tall_image - 1 ->
       get r 1 1 =
       get (fst (spec_solve (lib := stub_lib (Some dgesv_identity))
                   (spec_assemble (lib := stub_lib (Some dgesv_identity))
                      tall_image 5 1) tall_image)) 1 1)
  | _ => True
  end.
Proof.
  assert (Hl : 0 = n_grids_ (this (world0 1 3 4)) - 1) by reflexivity.
  assert (Hd : dims_match (this (world0 1 3 4)) tall_image)
    by (split; reflexivity).
  assert (Hin : in_field (size0 tall_image) (size1 tall_image) 1 1)
    by (unfold in_field; cbn; lia).
  split; [exact Hl|]. split; [exact Hd|]. split; [exact Hin|].
  exact (mgv_terminal_pixels (lib := stub_lib (Some dgesv_identity)) 0
           (constant_field 4 3 0) tall_image 5 0 1 (world0 1 3 4) 1 1
           Hl Hd Hin).
Defined.

(** ** The statistics and the clipping of [cutExtremum] *)

Lemma for_from_grows (body : Z -> R -> R) :
  forall n i a,
  (forall j s, i <= j < i + Z.of_nat n -> (s <= body j s)%R) ->
  (a <= for_from n i body a)%R.
Proof.
  induction n as [|n IH]; intros i a H; simpl; [lra|].
  apply Rle_trans with (body i a); [apply H; lia|].
  apply IH. intros j s Hj. apply H. lia.
Qed.

Lemma for_loop_grows (body : Z -> R -> R) n a :
  (forall j s, 0 <= j < n -> (s <= body j s)%R) ->
  (a <= for_loop n body a)%R.
Proof.
  intros H. unfold for_loop. apply for_from_grows. intros j s Hj. apply H. lia.
Qed.

Lemma square_sum_nonneg data m : (0 <= square_sum data m)%R.
Proof.
  unfold square_sum. apply for_loop_grows. intros y s _.
  apply for_loop_grows. intros x s' _.
  pose proof (Rle_0_sqr (get data y x - m)) as H. unfold Rsqr in H. lra.
Qed.

(** X7.  On a field of at least two pixels, whose number fits in an
    [int], the variance that [cutExtremum] computes is never negative: the
    square root of line 359 is taken of a non-negative number. *)
Theorem field_var_nonneg (data : DoubleTensor) :
  2 <= size1 data * size0 data <= INT_MAX ->
  (0 <= field_var data)%R.
Proof.
  intros H. unfold field_var. cbn zeta.
  rewrite (int_of_in_range (size1 data * size0 data))
    by (unfold INT_MAX in *; lia).
  rewrite int_of_in_range by (unfold INT_MAX in *; lia).
  apply Rmult_le_pos.
  - apply square_sum_nonneg.
  - apply Rlt_le, Rinv_0_lt_compat. apply IZR_lt. lia.
Qed.

Lemma field_var_nonneg_witness :
  2 <= size1 spike * size0 spike <= INT_MAX /\
  (0 <= field_var spike)%R.
Proof.
  assert (H : 2 <= size1 spike * size0 spike <= INT_MAX)
    by (unfold INT_MAX; cbn; lia).
  split; [exact H|]. exact (field_var_nonneg spike H).
Defined.

Lemma clamp_cases hi lo v :
  (lo <= hi)%R ->
  ((lo <= v <= hi)%R -> clamp hi lo v = v) /\
  ((hi < v)%R -> clamp hi lo v = hi) /\
  ((v < lo)%R -> clamp hi lo v = lo).
Proof.
  intros H. unfold clamp.
  destruct (Rgt_dec v hi); destruct (Rlt_dec _ lo); repeat split; intros;
    lra.
Qed.

Lemma clamp_monotone hi lo v1 v2 :
  (v1 <= v2)%R -> (clamp hi lo v1 <= clamp hi lo v2)%R.
Proof.
  intros H. unfold clamp.
  destruct (Rgt_dec v1 hi); destruct (Rgt_dec v2 hi);
    repeat match goal with
    | |- context [Rlt_dec ?a ?b] => destruct (Rlt_dec a b)
    end; lra.
Qed.

(** X8.  For a non-negative width of the distribution, [cutExtremum] moves
    the outliers only: a pixel within [mean - k std, mean + k std] keeps its
    value, a pixel above takes the upper bound and a pixel below takes the
    lower bound (mean and std of the field before clipping); the extents and
    everything outside the field are untouched. *)
Theorem cutExtremum_moves_outliers_only (data : DoubleTensor) k p y x :
  0 <= k ->
  let out := snd (cutExtremum data k p) in
  let v := get data y x in
  let hi := (field_mean data + IZR k * field_std_dev data)%R in
  let lo := (field_mean data - IZR k * field_std_dev data)%R in
  size0 out = size0 data /\ size1 out = size1 data /\
  (in_field (size0 data) (size1 data) y x ->
   ((lo <= v <= hi)%R -> get out y x = v) /\
   ((hi < v)%R -> get out y x = hi) /\
   ((v < lo)%R -> get out y x = lo)) /\
  (~ in_field (size0 data) (size1 data) y x -> get out y x = v).
Proof.
  intros Hk. cbn zeta.
  destruct (cutExtremum_spec data k p) as (_ & S0 & S1 & Hg). cbn zeta in *.
  split; [exact S0|]. split; [exact S1|]. rewrite Hg. split.
  - intros Hin. rewrite (in_fieldb_true _ _ _ _ Hin).
    apply clamp_cases.
    pose proof (sqrt_pos (field_var data)) as Hs. fold (field_std_dev data) in Hs.
    assert (0 <= IZR k)%R by (apply IZR_le; exact Hk). nra.
  - intros Hout. destruct (in_fieldb_spec (size0 data) (size1 data) y x);
      [contradiction | reflexivity].
Qed.

Lemma cutExtremum_moves_outliers_only_witness :
  0 <= 4 /\
  size0 (snd (cutExtremum spike 4 0)) = size0 spike /\
  (in_field (size0 spike) (size1 spike) 2 2 ->
   (Rlt (field_mean spike + 4 * field_std_dev spike) (get spike 2 2) ->
    get (snd (cutExtremum spike 4 0)) 2 2 =
    (field_mean spike + 4 * field_std_dev spike)%R)).
Proof.
  assert (Hk : 0 <= 4) by lia.
  split; [exact Hk|].
  destruct (cutExtremum_moves_outliers_only spike 4 0 2 2 Hk)
    as (S0 & _ & Hin & _).
  split; [exact S0|]. intros H. exact (proj1 (proj2 (Hin H))).
Defined.

(** X9.  [cutExtremum] never reorders the pixels: if one pixel of the field
    is at most another before the clipping, it is at most the other after
    it, for every width of the distribution. *)
Theorem cutExtremum_preserves_order (data : DoubleTensor) k p y1 x1 y2 x2 :
  in_field (size0 data) (size1 data) y1 x1 ->
  in_field (size0 data) (size1 data) y2 x2 ->
  (get data y1 x1 <= get data y2 x2)%R ->
  (get (snd (cutExtremum data k p)) y1 x1
   <= get (snd (cutExtremum data k p)) y2 x2)%R.
Proof.
  intros H1 H2 Hle.
  destruct (cutExtremum_spec data k p) as (_ & _ & _ & Hg). cbn zeta in Hg.
  rewrite !Hg, (in_fieldb_true _ _ _ _ H1), (in_fieldb_true _ _ _ _ H2).
  apply clamp_monotone. exact Hle.
Qed.

Lemma cutExtremum_preserves_order_witness :
  in_field (size0 spike) (size1 spike) 0 0 /\
  in_field (size0 spike) (size1 spike) 2 2 /\
  Rle (get spike 0 0) (get spike 2 2) /\
  Rle (get (snd (cutExtremum spike 4 0)) 0 0)
      (get (snd (cutExtremum spike 4 0)) 2 2).
Proof.
  assert (H1 : in_field (size0 spike) (size1 spike) 0 0)
    by (unfold in_field; cbn; lia).
  assert (H2 : in_field (size0 spike) (size1 spike) 2 2)
    by (unfold in_field; cbn; lia).
  assert (Hle : Rle (get spike 0 0) (get spike 2 2)) by (cbn; lra).
  split; [exact H1|]. split; [exact H2|]. split; [exact Hle|].
  exact (cutExtremum_preserves_order spike 4 0 0 0 2 2 H1 H2 Hle).
Defined.

(** ** The driver *)

(** X11.  Where the light equals the image on every pixel inside the
    border, the reflectance built by lines 144-158 is 1 on the whole field:
    the border is set to 1, a light within 0.01 of zero gives 1, and any
    other light divides itself. *)
Theorem build_result_of_own_light height width image_grid light t y x :
  in_field height width y x ->
  (on_boundary height width y x = false ->
   get light y x = get image_grid y x) ->
  get (build_result height width image_grid light t) y x = 1%R.
Proof.
  intros Hin Heq.
  destruct (build_result_spec height width image_grid light t) as (_ & _ & Hg).
  cbn zeta in Hg. rewrite Hg, (in_fieldb_true _ _ _ _ Hin).
  destruct (on_boundary height width y x); [reflexivity|].
  destruct (IS_NEAR (get light y x) 0 (1 / 100)) eqn:E; [reflexivity|].
  rewrite <- Heq by reflexivity.
  assert (Habs : (1 / 100 < Rabs (get light y x))%R)
    by (apply IS_NEAR_false; [exact E | lra]).
  apply Rdiv_diag. intros E0. rewrite E0, Rabs_R0 in Habs. lra.
Qed.

Lemma build_result_of_own_light_witness :
  in_field 4 4 1 1 /\
  (on_boundary 4 4 1 1 = false ->
   get (constant_field 4 4 6) 1 1 = get (constant_field 4 4 6) 1 1) /\
  get (build_result 4 4 (constant_field 4 4 6) (constant_field 4 4 6)
         (constant_field 4 4 0)) 1 1 = 1%R.
Proof.
  assert (Hin : in_field 4 4 1 1) by (unfold in_field; lia).
  assert (Heq : on_boundary 4 4 1 1 = false ->
                get (constant_field 4 4 6) 1 1 = get (constant_field 4 4 6) 1 1)
    by (intros _; reflexivity).
  split; [exact Hin|]. split; [exact Heq|].
  exact (build_result_of_own_light 4 4 (constant_field 4 4 6)
           (constant_field 4 4 6) (constant_field 4 4 0) 1 1 Hin Heq).
Defined.

Lemma output_mismatch_new_ShortTensor {lib : MultigridLib} (input : Tensor) :
  output_mismatch
    (Some (new_ShortTensor (size input 0) (size input 1) (size input 2)))
    input = false.
Proof.
  unfold output_mismatch, new_ShortTensor. cbn [nDimension size].
  cbn. rewrite !Z.eqb_refl. reflexivity.
Qed.

(** X12.  [allocateOutput] returns true only with an output slot that holds
    a 3-D tensor of the extents of the input, and false only for an input
    of several channels that the output in place already matches, the
    object being left as it was; it makes no call and writes neither
    [n_grids_], [width_] nor [height_]. *)
Theorem allocateOutput_postcondition {lib : MultigridLib} (input : Tensor) w :
  match allocateOutput input w with
  | Returned true w' =>
      output_mismatch (m_output (this w')) input = false /\
      calls w' = calls w /\
      n_grids_ (this w') = n_grids_ (this w) /\
      width_ (this w') = width_ (this w) /\
      height_ (this w') = height_ (this w)
  | Returned false w' =>
      w' = w /\ size input 2 <> 1 /\
      output_mismatch (m_output (this w)) input = false
  | _ => False
  end.
Proof.
  rewrite allocateOutput_spec.
  destruct (output_mismatch (m_output (this w)) input) eqn:E.
  - cbn [this calls set_m_output m_output n_grids_ width_ height_].
    split; [apply output_mismatch_new_ShortTensor|]. repeat split.
  - destruct (Z.eqb_spec (size input 2) 1) as [H|H].
    + rewrite E. repeat split.
    + repeat split; assumption.
Qed.

Lemma output_mismatch_fill_short o v input :
  output_mismatch (option_map (fill_short v) o) input = output_mismatch o input.
Proof. destruct o; reflexivity. Qed.

Lemma output_mismatch_copy_short o src input :
  output_mismatch (option_map (copy_short src) o) input =
  output_mismatch o input.
Proof. destruct o; reflexivity. Qed.

(** What [processInput] leaves when it returns. *)
Lemma processInput_returns {lib : MultigridLib} fuel input w b w' :
  processInput fuel input w = Returned b w' ->
  b = true /\
  n_grids_ (this w') = opt_n_grids (this w) /\
  opt_lambda (this w') = opt_lambda (this w) /\
  opt_n_grids (this w') = opt_n_grids (this w) /\
  opt_type (this w') = opt_type (this w) /\
  (forall input',
     output_mismatch (m_output (this w')) input' =
     output_mismatch (m_output (this w)) input') /\
  exists trace, calls w' = calls w ++ trace ++ [Call_ipRescaleGray].
Proof.
  unfold processInput, reflectance. run_monad.
  match goal with
  | |- context [mgv fuel ?g ?i ?l 0 ?ty ?w0] =>
      pose proof (mgv_settings_kept fuel g i l 0 ty w0) as Hs;
      pose proof (mgv_calls_grow fuel g i l 0 ty w0) as Hc;
      destruct (mgv fuel g i l 0 ty w0) as [light w1|e1 w1|]
  end; try discriminate.
  destruct (cutExtremum _ 4 0) as [b1 out]. run_monad.
  unfold ipRescaleGray_process. run_monad.
  intros H. inversion H; subst. clear H.
  cbn [outcome_world] in Hs, Hc.
  destruct Hs as (H1 & H2 & H3 & H4 & H5).
  destruct (Hc w1 eq_refl) as [tr Htr].
  cbn [this calls set_m_output set_n_grids_ set_height_ set_width_
       opt_lambda opt_n_grids opt_type m_output n_grids_] in *.
  repeat split; try assumption.
  - intros input'. rewrite output_mismatch_copy_short, H4.
    apply output_mismatch_fill_short.
  - exists tr. rewrite Htr, <- app_assoc. reflexivity.
Qed.

(** X13.  [processInput] never returns false: it returns true, or the run
    ends or goes on in [mgv].  When it returns, [n_grids_] holds the value of the option
    [n_grids], the three options are unchanged, the output slot has the
    extents it had, and the last call made is the rescaling. *)
Theorem processInput_postcondition {lib : MultigridLib} fuel input w :
  match processInput fuel input w with
  | Returned b w' =>
      b = true /\
      n_grids_ (this w') = opt_n_grids (this w) /\
      opt_lambda (this w') = opt_lambda (this w) /\
      opt_n_grids (this w') = opt_n_grids (this w) /\
      opt_type (this w') = opt_type (this w) /\
      (forall input',
         output_mismatch (m_output (this w')) input' =
         output_mismatch (m_output (this w)) input') /\
      exists trace, calls w' = calls w ++ trace ++ [Call_ipRescaleGray]
  | _ => True
  end.
Proof.
  destruct (processInput fuel input w) as [b w'| |] eqn:E;
    [|exact I|exact I].
  exact (processInput_returns fuel input w b w' E).
Qed.

(** X14.  [allocateOutput] and [processInput] compose: when [allocateOutput] has
    accepted an input and [processInput] then returns, the output slot
    holds a 3-D tensor with the extents of that input. *)
Theorem allocate_then_process_output {lib : MultigridLib} fuel input w :
  match allocateOutput input w with
  | Returned true w1 =>
      match processInput fuel input w1 with
      | Returned _ w2 => output_mismatch (m_output (this w2)) input = false
      | _ => True
      end
  | _ => True
  end.
Proof.
  pose proof (allocateOutput_spec input w) as Ea.
  destruct (allocateOutput input w) as [[|] w1| |]; try exact I.
  assert (Hm : output_mismatch (m_output (this w1)) input = false).
  { destruct (output_mismatch (m_output (this w)) input) eqn:E.
    - inversion Ea; subst. apply output_mismatch_new_ShortTensor.
    - inversion Ea; subst. exact E. }
  destruct (processInput fuel input w1) as [b w2| |] eqn:Ep; try exact I.
  destruct (processInput_returns fuel input w1 b w2 Ep)
    as (_ & _ & _ & _ & _ & Ho & _).
  rewrite Ho. exact Hm.
Qed.

(** X15.  With the option [n_grids] at 1, the default of the constructor,
    [processInput] makes no call of the smoother, the multiplier, the
    restriction or the prolongation: it assembles the operator, solves once
    and rescales; when LAPACK fails, the run ends right after the solver. *)
Theorem processInput_single_grid {lib : MultigridLib} fuel input w :
  opt_n_grids (this w) = 1 ->
  match processInput (Datatypes.S fuel) input w with
  | Returned _ w' =>
      calls w' =
        calls w ++ Call_buildOperator :: solver_calls 0
          ++ [Call_ipRescaleGray]
  | Aborted e w' =>
      exists info,
        e = LapackError info /\ info <> 0 /\
        calls w' = calls w ++ [Call_buildOperator; Call_dgesv info]
  | Unfinished => False
  end.
Proof.
  intros Hn. unfold processInput, reflectance. run_monad.
  match goal with
  | |- context [mgv (Datatypes.S fuel) ?g ?i ?l 0 ?ty ?w0] =>
      destruct (mgv_terminal_raw fuel g i l 0 ty w0)
        as (field & info & Hs & _ & _ & E);
      [cbn [this set_height_ set_width_ set_n_grids_ set_m_output n_grids_];
       lia|]
  end.
  rewrite E. cbn zeta.
  destruct (Z.eqb_spec info 0) as [Hi|Hi].
  - subst info. destruct (cutExtremum _ 4 0) as [b1 out]. run_monad.
    unfold ipRescaleGray_process. run_monad. cbn [calls].
    rewrite <- app_assoc. reflexivity.
  - exists info. destruct Hs as [Hs|Hs]; [contradiction|]. rewrite Hs.
    split; [reflexivity|]. split; [exact Hi | reflexivity].
Qed.

Lemma processInput_single_grid_witness :
  opt_n_grids (this fresh_world) = 1 /\
  match
    processInput (lib := stub_lib (Some dgesv_identity)) 1 gray_image
      fresh_world
  with
  | Returned _ w' =>
      calls w' =
        calls fresh_world ++ Call_buildOperator
          :: solver_calls (lib := stub_lib (Some dgesv_identity)) 0
          ++ [Call_ipRescaleGray]
  | Aborted e w' =>
      exists info,
        e = LapackError info /\ info <> 0 /\
        calls w' = calls fresh_world ++ [Call_buildOperator; Call_dgesv info]
  | Unfinished => False
  end.
Proof.
  split; [reflexivity|].
  exact (processInput_single_grid (lib := stub_lib (Some dgesv_identity)) 0
           gray_image fresh_world eq_refl).
Defined.

(** X16.  When the output is allocated, [n_grids] is at least 1 and the
    extents of the image are multiples of 2 ^ (n_grids - 1), [processInput],
    given fuel for the [n_grids] levels, ends, and where it returns
    [height_] and [width_] hold the extents of the image it processed. *)
Theorem processInput_leaves_image_extents {lib : MultigridLib}
    fuel input w :
  m_output (this w) <> None ->
  1 <= opt_n_grids (this w) ->
  (2 ^ (opt_n_grids (this w) - 1) | size input 0) ->
  (2 ^ (opt_n_grids (this w) - 1) | size input 1) ->
  (Z.to_nat (opt_n_grids (this w) - 1) < fuel)%nat ->
  match processInput fuel input w with
  | Returned _ w' =>
      height_ (this w') = size input 0 /\ width_ (this w') = size input 1
  | Aborted _ _ => True
  | Unfinished => False
  end.
Proof.
  intros _ Hn H0 H1 Hf. unfold processInput, reflectance. run_monad.
  match goal with
  | |- context [mgv fuel ?g ?i ?l 0 ?ty ?w0] =>
      pose proof (mgv_restores_this fuel g i l 0 ty w0) as Hr;
      pose proof (mgv_finishes fuel g i l 0 ty w0) as Hfin;
      destruct (mgv fuel g i l 0 ty w0) as [light w1|e1 w1|]
  end; [|exact I|].
  - destruct (cutExtremum _ 4 0) as [b1 out]. run_monad.
    unfold ipRescaleGray_process. run_monad.
    cbn [this set_m_output height_ width_].
    rewrite (Hr light w1); [split; reflexivity| |reflexivity].
    unfold coarsenable.
    cbn [this set_height_ set_width_ set_n_grids_ set_m_output n_grids_
         width_ height_].
    rewrite Z.sub_0_r. split; [lia|]. split; assumption.
  - apply Hfin; [| |reflexivity];
      cbn [this set_height_ set_width_ set_n_grids_ set_m_output n_grids_];
      [lia | rewrite Z.sub_0_r; exact Hf].
Qed.

Lemma processInput_leaves_image_extents_witness :
  let lib := stub_lib (Some dgesv_identity) in
  let w := allocated_world 2 4 4 in
  m_output (this w) <> None /\
  1 <= opt_n_grids (this w) /\
  (2 ^ (opt_n_grids (this w) - 1) | size gray_image 0) /\
  (2 ^ (opt_n_grids (this w) - 1) | size gray_image 1) /\
  (Z.to_nat (opt_n_grids (this w) - 1) < 2)%nat /\
  exists b w',
    processInput 2 gray_image w = Returned b w' /\
    calls w' =
      [Call_gaussSeidel; Call_myMultiply; Call_restriction;
       Call_buildOperator; Call_dgesv 0;
       Call_project; Call_gaussSeidel; Call_ipRescaleGray] /\
    height_ (this w') = size gray_image 0 /\
    width_ (this w') = size gray_image 1.
Proof.
  cbn zeta.
  assert (Ho : m_output
                 (this (allocated_world
                          (lib := stub_lib (Some dgesv_identity)) 2 4 4))
               <> None) by (cbn; discriminate).
  assert (Hn : 1 <= opt_n_grids
                      (this (allocated_world
                               (lib := stub_lib (Some dgesv_identity)) 2 4 4)))
    by (cbn; lia).
  assert (H0 : (2 ^ (opt_n_grids
                       (this (allocated_world
                                (lib := stub_lib (Some dgesv_identity))
                                2 4 4)) - 1)
                | size gray_image 0)) by (exists 2; reflexivity).
  assert (H1 : (2 ^ (opt_n_grids
                       (this (allocated_world
                                (lib := stub_lib (Some dgesv_identity))
                                2 4 4)) - 1)
                | size gray_image 1)) by (exists 2; reflexivity).
  assert (Hf : (Z.to_nat
                  (opt_n_grids
                     (this (allocated_world
                              (lib := stub_lib (Some dgesv_identity))
                              2 4 4)) - 1) < 2)%nat) by (cbn; lia).
  split; [exact Ho|]. split; [exact Hn|]. split; [exact H0|].
  split; [exact H1|]. split; [exact Hf|].
  pose proof (processInput_leaves_image_extents
                (lib := stub_lib (Some dgesv_identity)) 2 gray_image
                (allocated_world (lib := stub_lib (Some dgesv_identity)) 2 4 4)
                Ho Hn H0 H1 Hf) as H.
  eexists. eexists. split; [vm_compute; reflexivity|].
  split; [reflexivity|].
  vm_compute in H. exact H.
Defined.

(** X17.  At the coarsest level [mgv] does not read its initial guess: the
    terminal branch starts from a copy of the right-hand side, and two
    calls that differ in the guess only have the same outcome. *)
Theorem mgv_terminal_ignores_guess {lib : MultigridLib}
    fuel x_v x_v' b_v lambda level type w :
  level = n_grids_ (this w) - 1 ->
  mgv (Datatypes.S fuel) x_v b_v lambda level type w =
  mgv (Datatypes.S fuel) x_v' b_v lambda level type w.
Proof.
  intros Hl. cbn [mgv]. run_monad. rewrite Hl, Z.eqb_refl. reflexivity.
Qed.

Lemma mgv_terminal_ignores_guess_witness :
  0 = n_grids_ (this (world0 1 3 4)) - 1 /\
  mgv (lib := stub_lib (Some dgesv_identity)) 1
    (constant_field 4 3 0) tall_image 5 0 1 (world0 1 3 4) =
  mgv (lib := stub_lib (Some dgesv_identity)) 1
    (constant_field 4 3 9) tall_image 5 0 1 (world0 1 3 4).
Proof.
  split; [reflexivity|].
  exact (mgv_terminal_ignores_guess (lib := stub_lib (Some dgesv_identity)) 0
           (constant_field 4 3 0) (constant_field 4 3 9) tall_image 5 0 1
           (world0 1 3 4) eq_refl).
Defined.
